(** * A shallow embedding of the S3 bucket client (s3/bucket.go, s3/http/conn.go)

    Go strings and byte slices are byte sequences: both are modelled by
    [string] (a list of 8-bit [ascii] characters), and a nil slice by the
    empty string or list.  A [rune] is a signed 32-bit integer, modelled by
    [Z].  Go maps are [gmap]s.  An [error] value is either the sentinel
    [io.EOF] or a message built by [fmt.Errorf] / [errors.New]; the nil error
    is [None].

    The signer, the connection and the clock of a bucket are functions on a
    state of the world that the bucket does not know; an operation of the
    bucket threads that state and a log of the calls it made to them.

    The first part embeds the code and the library functions it calls, the
    second part holds what the specification refers to and the values the
    tests use, the third part the properties. *)

From Stdlib Require Import ZArith Lia Ascii String List Bool.
From stdpp Require Import base option list strings gmap fin_maps pretty sorting.

Local Open Scope string_scope.
Local Open Scope list_scope.

(* ------------------------------------------------------------------ *)
(** ** Errors, strings and formatting verbs *)
(* ------------------------------------------------------------------ *)

Inductive error : Type :=
| io_EOF
| errors_New (msg : string).

(** The [Error()] method. *)
Definition Error (e : error) : string :=
  match e with
  | io_EOF => "EOF"
  | errors_New msg => msg
  end.

(** [strings.Contains s sub], by scanning every suffix of [s]. *)
Fixpoint HasPrefix (s pre : string) {struct pre} : bool :=
  match pre with
  | EmptyString => true
  | String p pre' =>
      match s with
      | String c s' => if Ascii.eqb p c then HasPrefix s' pre' else false
      | EmptyString => false
      end
  end.

Fixpoint Contains (s sub : string) : bool :=
  HasPrefix s sub ||
  match s with
  | EmptyString => false
  | String _ s' => Contains s' sub
  end.

(** The declarative reading of "message [s] contains [sub]". *)
Definition HasSubstr (sub s : string) : Prop :=
  exists pre post : string, s = pre +:+ sub +:+ post.

Definition byteZ (c : ascii) : Z := Z.of_N (N_of_ascii c).

Definition hexDigit (d : Z) : ascii :=
  ascii_of_N (Z.to_N (if Z.ltb d 10 then 48 + d else 55 + d)).

(** Upper-case hexadecimal digits of [n], least significant first, at most
    [fuel] of them. *)
Fixpoint hexDigitsRev (fuel : nat) (n : Z) : list ascii :=
  match fuel with
  | O => []
  | S fuel' =>
      if Z.ltb n 16 then [hexDigit n]
      else hexDigit (Z.modulo n 16) :: hexDigitsRev fuel' (Z.div n 16)
  end.

Definition string_of_chars (l : list ascii) : string :=
  fold_right String EmptyString l.

Definition fmt_X (n : Z) : string :=
  string_of_chars (rev (hexDigitsRev 16 n)).

(** The [%U] verb: [U+] followed by at least four upper-case hex digits. *)
Definition fmt_U (r : Z) : string :=
  let h := fmt_X r in
  "U+" +:+ string_of_chars (repeat "0"%char (4 - String.length h)) +:+ h.

(** The [%d] verb. *)
Definition fmt_d (n : Z) : string := pretty n.

(** [fmt.Errorf] with the verbs already rendered. *)
Definition fmt_Errorf (msg : string) : error := errors_New msg.

(* ------------------------------------------------------------------ *)
(** ** unicode/utf8 *)
(* ------------------------------------------------------------------ *)

Module utf8.
Local Open Scope Z_scope.

Definition RuneError : Z := 0xFFFD.

(** The information the [first] table and [acceptRanges] hold for a lead
    byte. *)
Inductive lead : Type :=
| ASCII
| Invalid
| Multi (size : nat) (lo hi : Z).

Definition first (b : Z) : lead :=
  if b <? 0x80 then ASCII
  else if b <? 0xC2 then Invalid
  else if b <? 0xE0 then Multi 2 0x80 0xBF
  else if b =? 0xE0 then Multi 3 0xA0 0xBF
  else if b <? 0xED then Multi 3 0x80 0xBF
  else if b =? 0xED then Multi 3 0x80 0x9F
  else if b <? 0xF0 then Multi 3 0x80 0xBF
  else if b =? 0xF0 then Multi 4 0x90 0xBF
  else if b <? 0xF4 then Multi 4 0x80 0xBF
  else if b =? 0xF4 then Multi 4 0x80 0x8F
  else Invalid.

Definition locb : Z := 0x80.
Definition hicb : Z := 0xBF.
Definition maskx : Z := 0x3F.
Definition mask2 : Z := 0x1F.
Definition mask3 : Z := 0x0F.
Definition mask4 : Z := 0x07.

Definition outside (lo hi b : Z) : bool := (b <? lo) || (hi <? b).

Definition rune2 (s0 s1 : Z) : Z :=
  Z.lor (Z.shiftl (Z.land s0 mask2) 6) (Z.land s1 maskx).

Definition rune3 (s0 s1 s2 : Z) : Z :=
  Z.lor (Z.lor (Z.shiftl (Z.land s0 mask3) 12) (Z.shiftl (Z.land s1 maskx) 6))
        (Z.land s2 maskx).

Definition rune4 (s0 s1 s2 s3 : Z) : Z :=
  Z.lor (Z.lor (Z.lor (Z.shiftl (Z.land s0 mask4) 18) (Z.shiftl (Z.land s1 maskx) 12))
               (Z.shiftl (Z.land s2 maskx) 6))
        (Z.land s3 maskx).

(** The sequence of [(rune, width)] pairs that repeated calls of
    [DecodeRuneInString] produce on [s]: an ill-formed or truncated sequence
    yields [(RuneError, 1)] and decoding resumes at the next byte. *)
Fixpoint decode (s : string) : list (Z * nat) :=
  match s with
  | EmptyString => []
  | String c0 t1 =>
      let s0 := byteZ c0 in
      match first s0 with
      | ASCII => (s0, 1%nat) :: decode t1
      | Invalid => (RuneError, 1%nat) :: decode t1
      | Multi sz lo hi =>
          match t1 with
          | EmptyString => (RuneError, 1%nat) :: decode t1
          | String c1 t2 =>
              let s1 := byteZ c1 in
              if outside lo hi s1 then (RuneError, 1%nat) :: decode t1
              else if (sz <=? 2)%nat then (rune2 s0 s1, 2%nat) :: decode t2
              else
                match t2 with
                | EmptyString => (RuneError, 1%nat) :: decode t1
                | String c2 t3 =>
                    let s2 := byteZ c2 in
                    if outside locb hicb s2 then (RuneError, 1%nat) :: decode t1
                    else if (sz <=? 3)%nat then (rune3 s0 s1 s2, 3%nat) :: decode t3
                    else
                      match t3 with
                      | EmptyString => (RuneError, 1%nat) :: decode t1
                      | String c3 t4 =>
                          let s3 := byteZ c3 in
                          if outside locb hicb s3 then (RuneError, 1%nat) :: decode t1
                          else (rune4 s0 s1 s2 s3, 4%nat) :: decode t4
                      end
                end
          end
      end
  end.

(** A decoding step reports an encoding error as [RuneError] of width 1;
    a well-formed U+FFFD has width 3. *)
Definition wellFormed (rw : Z * nat) : bool :=
  negb ((fst rw =? RuneError) && (snd rw =? 1)%nat).

Definition ValidString (s : string) : bool := forallb wellFormed (decode s).

(** The runes a [for _, r := range s] loop visits. *)
Definition runes (s : string) : list Z := map fst (decode s).

End utf8.

(* ------------------------------------------------------------------ *)
(** ** Key validation (bucket.go, "Common") *)
(* ------------------------------------------------------------------ *)

Section KeyValidation.
Local Open Scope Z_scope.

Definition isLegalXmlCharacter (r : Z) : bool :=
  (r =? 0x09) ||
  (r =? 0x0A) ||
  (r =? 0x0D) ||
  ((r >=? 0x20) && (r <=? 0xDF77)) ||
  ((r >=? 0xE000) && (r <=? 0xFFFD)) ||
  ((r >=? 0x10000) && (r <=? 0x10FFFF)).

(** The [for _, r := range key] loop of [validateKey]: the first rune that
    is not legal ends the loop with an error. *)
Fixpoint checkRunes (rs : list Z) : option error :=
  match rs with
  | [] => None
  | r :: rs' =>
      if negb (isLegalXmlCharacter r)
      then Some (fmt_Errorf ("Key contains invalid codepoint: " +:+ fmt_U r))
      else checkRunes rs'
  end.

Definition validateKey (key : string) : option error :=
  if (1024 <? String.length key)%nat then
    Some (fmt_Errorf "Keys may be no longer than 1024 bytes.")
  else if negb (utf8.ValidString key) then
    Some (fmt_Errorf "Keys must be valid UTF-8.")
  else if String.eqb key "" then
    Some (fmt_Errorf "Keys must be non-empty.")
  else checkRunes (utf8.runes key).

End KeyValidation.

(** Byte strings from byte values, for writing test inputs. *)
Definition bytesOf (l : list Z) : string :=
  string_of_chars (map (fun b => ascii_of_N (Z.to_N b)) l).

Definition bytesZ (s : string) : list Z :=
  map byteZ (list_ascii_of_string s).

(* ------------------------------------------------------------------ *)
(** ** crypto/md5 and encoding/base64 *)
(* ------------------------------------------------------------------ *)

Module md5.
Local Open Scope Z_scope.

Definition w32 (x : Z) : Z := x mod 2^32.
Definition rotl (x : Z) (c : Z) : Z :=
  w32 (Z.lor (Z.shiftl x c) (Z.shiftr x (32 - c))).
Definition not32 (x : Z) : Z := Z.lxor x 0xFFFFFFFF.

Definition K : list Z :=
  [ 0xd76aa478; 0xe8c7b756; 0x242070db; 0xc1bdceee;
    0xf57c0faf; 0x4787c62a; 0xa8304613; 0xfd469501;
    0x698098d8; 0x8b44f7af; 0xffff5bb1; 0x895cd7be;
    0x6b901122; 0xfd987193; 0xa679438e; 0x49b40821;
    0xf61e2562; 0xc040b340; 0x265e5a51; 0xe9b6c7aa;
    0xd62f105d; 0x02441453; 0xd8a1e681; 0xe7d3fbc8;
    0x21e1cde6; 0xc33707d6; 0xf4d50d87; 0x455a14ed;
    0xa9e3e905; 0xfcefa3f8; 0x676f02d9; 0x8d2a4c8a;
    0xfffa3942; 0x8771f681; 0x6d9d6122; 0xfde5380c;
    0xa4beea44; 0x4bdecfa9; 0xf6bb4b60; 0xbebfbc70;
    0x289b7ec6; 0xeaa127fa; 0xd4ef3085; 0x04881d05;
    0xd9d4d039; 0xe6db99e5; 0x1fa27cf8; 0xc4ac5665;
    0xf4292244; 0x432aff97; 0xab9423a7; 0xfc93a039;
    0x655b59c3; 0x8f0ccc92; 0xffeff47d; 0x85845dd1;
    0x6fa87e4f; 0xfe2ce6e0; 0xa3014314; 0x4e0811a1;
    0xf7537e82; 0xbd3af235; 0x2ad7d2bb; 0xeb86d391 ].

Definition shifts : list Z :=
  [ 7; 12; 17; 22; 7; 12; 17; 22; 7; 12; 17; 22; 7; 12; 17; 22;
    5;  9; 14; 20; 5;  9; 14; 20; 5;  9; 14; 20; 5;  9; 14; 20;
    4; 11; 16; 23; 4; 11; 16; 23; 4; 11; 16; 23; 4; 11; 16; 23;
    6; 10; 15; 21; 6; 10; 15; 21; 6; 10; 15; 21; 6; 10; 15; 21 ].

Definition le32 (b0 b1 b2 b3 : Z) : Z :=
  b0 + 256 * b1 + 65536 * b2 + 16777216 * b3.

Fixpoint words (bs : list Z) : list Z :=
  match bs with
  | b0 :: b1 :: b2 :: b3 :: rest => le32 b0 b1 b2 b3 :: words rest
  | _ => []
  end.

Definition bytes32 (x : Z) : list Z :=
  [x mod 256; (x / 256) mod 256; (x / 65536) mod 256; (x / 16777216) mod 256].

Record digest : Type := Digest { dA : Z; dB : Z; dC : Z; dD : Z }.

Definition init : digest :=
  Digest 0x67452301 0xefcdab89 0x98badcfe 0x10325476.

Definition round (M : list Z) (d : digest) (i : Z) : digest :=
  let '(Digest A B C D) := d in
  let '(F, g) :=
    if i <? 16 then (Z.lor (Z.land B C) (Z.land (not32 B) D), i)
    else if i <? 32 then (Z.lor (Z.land D B) (Z.land (not32 D) C), (5 * i + 1) mod 16)
    else if i <? 48 then (Z.lxor (Z.lxor B C) D, (3 * i + 5) mod 16)
    else (Z.lxor C (Z.lor B (not32 D)), (7 * i) mod 16) in
  let F := w32 (F + A + nth (Z.to_nat i) K 0 + nth (Z.to_nat g) M 0) in
  Digest D (w32 (B + rotl F (nth (Z.to_nat i) shifts 0))) B C.

Definition block (d : digest) (chunk : list Z) : digest :=
  let M := words chunk in
  let '(Digest A B C D) := fold_left (round M) (map Z.of_nat (seq 0 64)) d in
  Digest (w32 (dA d + A)) (w32 (dB d + B)) (w32 (dC d + C)) (w32 (dD d + D)).

(** Bytes are absorbed one at a time; a full 64-byte buffer is compressed. *)
Definition absorb (st : digest * list Z) (b : Z) : digest * list Z :=
  let buf := snd st ++ [b] in
  if (length buf =? 64)%nat then (block (fst st) buf, []) else (fst st, buf).

Definition padding (len : Z) : list Z :=
  let zeros := (55 - len) mod 64 in
  0x80 :: repeat 0 (Z.to_nat zeros) ++
  bytes32 (w32 (8 * len)) ++ bytes32 (w32 ((8 * len) / 2^32)).

(** [h.Sum(nil)] for a hash that was written [msg]. *)
Definition Sum (msg : string) : string :=
  let bs := bytesZ msg in
  let '(Digest A B C D, _) :=
    fold_left absorb (bs ++ padding (Z.of_nat (length bs))) (init, []) in
  bytesOf (bytes32 A ++ bytes32 B ++ bytes32 C ++ bytes32 D).

End md5.

Module base64.
Local Open Scope Z_scope.

Definition encodeStd : string :=
  "ABCDEFGHIJKLMNOPQRSTUVWXYZabcdefghijklmnopqrstuvwxyz0123456789+/".

Definition sym (i : Z) : ascii :=
  match String.get (Z.to_nat i) encodeStd with
  | Some c => c
  | None => "="%char
  end.

Fixpoint encode (bs : list Z) : list ascii :=
  match bs with
  | [] => []
  | [a] =>
      [sym (a / 4); sym ((a mod 4) * 16); "="%char; "="%char]
  | [a; b] =>
      [sym (a / 4); sym ((a mod 4) * 16 + b / 16); sym ((b mod 16) * 4); "="%char]
  | a :: b :: c :: rest =>
      sym (a / 4) :: sym ((a mod 4) * 16 + b / 16) ::
      sym ((b mod 16) * 4 + c / 64) :: sym (c mod 64) :: encode rest
  end.

(** [StdEncoding.EncodeToString]. *)
Definition EncodeToString (src : string) : string :=
  string_of_chars (encode (bytesZ src)).

End base64.

(* ------------------------------------------------------------------ *)
(** ** io.ReadSeeker, io.Copy and the test doubles that implement them *)
(* ------------------------------------------------------------------ *)

(** The interface [io.ReadSeeker], as a class of the types that implement
    it: a value of type [R] is the state of the stream, a method returns its
    results and the state it leaves.  [Read] returns the bytes it stored in
    the caller's buffer and its error result.  [io.Copy] returns only for
    readers that reach [io.EOF] or an error after finitely many reads;
    [pendingReads] bounds the number of reads that can still succeed. *)
Class ReadSeeker (R : Type) : Type := {
  Read : R -> (string * option error) * R;
  Seek : R -> Z -> Z -> (Z * option error) * R;
  pendingReads : R -> nat;
  Read_pendingReads : forall s p s',
    Read s = ((p, None), s') -> (pendingReads s' < pendingReads s)%nat
}.

(** The loop of [io.Copy(dst, src)] for a [dst] whose [Write] cannot fail
    (a [hash.Hash]): bytes read are written before the read error is looked
    at, [io.EOF] ends the copy without an error.  [n] counts the reads that
    are left; it is chosen above [pendingReads], so the first branch is never
    taken. *)
Fixpoint copyLoop {R : Type} `{ReadSeeker R} (n : nat) (dst : string) (src : R)
  : (string * option error) * R :=
  match n with
  | O => ((dst, None), src)
  | S n' =>
      let '((p, er), src') := Read src in
      let dst' := dst +:+ p in
      match er with
      | Some io_EOF => ((dst', None), src')
      | Some e => ((dst', Some e), src')
      | None => copyLoop n' dst' src'
      end
  end.

(** [io.Copy(dst, src)]: the bytes [dst] has received, the error, and [src]
    afterwards. *)
Definition io_Copy {R : Type} `{ReadSeeker R} (dst : string) (src : R)
  : (string * option error) * R :=
  copyLoop (S (pendingReads src)) dst src.

(** [bytes.Reader], with a switch that makes it fail for tests: the data,
    the read offset, and an optional offset from which [Read] reports an I/O
    error. *)
Record reader : Type := {
  r_s : string;
  r_i : Z;
  r_readFault : option (Z * error)
}.

Definition bufSize : Z := 32768.

Definition slice (s : string) (i n : Z) : string :=
  String.substring (Z.to_nat i) (Z.to_nat n) s.

Definition reader_Read (r : reader) : (string * option error) * reader :=
  let len := Z.of_nat (String.length (r_s r)) in
  let stop := match r_readFault r with Some (at_, _) => Z.min at_ len | None => len end in
  if (stop <=? r_i r)%Z then
    match r_readFault r with
    | Some (at_, e) => if (at_ <=? r_i r)%Z then (("", Some e), r) else (("", Some io_EOF), r)
    | None => (("", Some io_EOF), r)
    end
  else
    let n := Z.min bufSize (stop - r_i r) in
    ((slice (r_s r) (r_i r) n, None),
     {| r_s := r_s r; r_i := r_i r + n; r_readFault := r_readFault r |}).

Definition reader_Seek (r : reader) (offset whence : Z) : (Z * option error) * reader :=
  let abs :=
    if (whence =? 0)%Z then Some offset
    else if (whence =? 1)%Z then Some (r_i r + offset)%Z
    else if (whence =? 2)%Z then Some (Z.of_nat (String.length (r_s r)) + offset)%Z
    else None in
  match abs with
  | None => ((0%Z, Some (errors_New "bytes.Reader.Seek: invalid whence")), r)
  | Some abs =>
      if (abs <? 0)%Z
      then ((0%Z, Some (errors_New "bytes.Reader.Seek: negative position")), r)
      else ((abs, None), {| r_s := r_s r; r_i := abs; r_readFault := r_readFault r |})
  end.

Definition reader_pendingReads (r : reader) : nat :=
  Z.to_nat (Z.of_nat (String.length (r_s r)) - r_i r).

Lemma reader_Read_pendingReads (s : reader) (p : string) (s' : reader) :
  reader_Read s = ((p, None), s') -> (reader_pendingReads s' < reader_pendingReads s)%nat.
Proof.
  unfold reader_Read, reader_pendingReads.
  destruct (r_readFault s) as [[at_ e]|] eqn:Hf.
  - destruct (Z.leb_spec (Z.min at_ (Z.of_nat (String.length (r_s s)))) (r_i s)).
    + destruct (at_ <=? r_i s)%Z; discriminate.
    + intros [= _ <-]; simpl. unfold bufSize. lia.
  - destruct (Z.leb_spec (Z.of_nat (String.length (r_s s))) (r_i s)).
    + discriminate.
    + intros [= _ <-]; simpl. unfold bufSize. lia.
Qed.

#[export] Instance reader_ReadSeeker : ReadSeeker reader := {|
  Read := reader_Read;
  Seek := reader_Seek;
  pendingReads := reader_pendingReads;
  Read_pendingReads := reader_Read_pendingReads
|}.

(** [bytes.NewReader(b)]. *)
Definition bytes_NewReader (b : string) : reader :=
  {| r_s := b; r_i := 0; r_readFault := None |}.

(** A stream over [b] whose reads fail with [e] from offset [at_] on, as a
    file on a failing disk does. *)
Definition faultyReader (b : string) (at_ : Z) (e : error) : reader :=
  {| r_s := b; r_i := 0; r_readFault := Some (at_, e) |}.

(* ------------------------------------------------------------------ *)
(** ** The content-integrity helper *)
(* ------------------------------------------------------------------ *)

(** [md5.New()], [Write] and [Sum(nil)]: the hash state is the data written
    so far. *)
Definition md5_New : string := "".

(** [bytes.Buffer.Write] appends and always returns a nil error;
    [base64.NewEncoder(...).Write] followed by [Close] leaves the encoding of
    what was written in the buffer. *)
Definition base64Encoder_Write (buf : string) (p : string) : string * option error :=
  (buf +:+ base64.EncodeToString p, None).

(** The deferred closure of [encodeMD5]: it runs after the return statement
    has set the named results [(result, err)] and assigns [err] again. *)
Definition encodeMD5_deferred {R : Type} `{ReadSeeker R} (named : string * option error)
  (body : R) : (string * option error) * R :=
  let '((_, err), body) := Seek body 0 0 in
  ((fst named, err), body).

Definition encodeMD5 {R : Type} `{ReadSeeker R} (body : R) : (string * option error) * R :=
  (* start at the beginning *)
  let '((_, err), body) := Seek body 0 0 in
  match err with
  | Some _ => (("", err), body)
  | None =>
      (* from here on every return runs [encodeMD5_deferred] *)
      let md5Hash := md5_New in
      let '((md5Hash, err), body) := io_Copy md5Hash body in
      match err with
      | Some err =>
          encodeMD5_deferred ("", Some (fmt_Errorf ("md5Hash.Copy: " +:+ Error err))) body
      | None =>
          let base64Md5Buf := "" in
          let '(base64Md5Buf, err) := base64Encoder_Write base64Md5Buf (md5.Sum md5Hash) in
          match err with
          | Some err =>
              encodeMD5_deferred ("", Some (fmt_Errorf ("base64Encoder.Write: " +:+ Error err))) body
          | None =>
              let result := base64Md5Buf in
              encodeMD5_deferred (result, None) body
          end
      end
  end.

(* ------------------------------------------------------------------ *)
(** ** Requests and responses (package s3/http) *)
(* ------------------------------------------------------------------ *)

(** The structs [Request] and [Response] are declared in files of package
    s3/http that are not among the sources; the fields below are the ones
    bucket.go, conn.go and the tests use. *)

(** The values the bucket stores in the [Body] field of a request: nothing,
    a [bytes.Buffer], or the stream of the caller. *)
Inductive io_Reader : Type :=
| nil_Reader
| bytes_NewBuffer (data : string)
| of_ReadSeeker {R : Type} `{ReadSeeker R} (data : R).

Record Request : Type := {
  Verb : string;
  Path : string;
  Headers : gmap string string;
  Parameters : gmap string string;
  Body : io_Reader
}.

(** The body stream of a response (an [io.ReadCloser]): the bytes it
    delivers, the error (other than [io.EOF]) that ends the reading, if any,
    and what the [%s] verb prints for the stream value itself, a dump of the
    fields of its dynamic type. *)
Record ReadCloser : Type := {
  rc_data : string;
  rc_failure : option error;
  rc_format : string
}.

(** A [net/http.Header]; a nil map is [None]. *)
Abbreviation sys_http_Header := (option (gmap string (list string))).

Record Response : Type := {
  StatusCode : Z;
  Header : sys_http_Header;
  RespBody : ReadCloser
}.

(** Modelled from the spec: [Response.ReadBody] is declared in a file of
    package s3/http that is not among the sources.  It reads the body stream
    to its end and returns the bytes, or surfaces the I/O error of the
    stream. *)
Definition ReadBody (r : Response) : string * option error :=
  (rc_data (RespBody r), rc_failure (RespBody r)).

Definition addMd5Header (r : Request) (body : string) : Request * option error :=
  let '((bodyMD5, err), _) := encodeMD5 (bytes_NewReader body) in
  match err with
  | Some _ => (r, err)
  | None =>
      ({| Verb := Verb r; Path := Path r;
          Headers := <["Content-MD5" := bodyMD5]> (Headers r);
          Parameters := Parameters r; Body := Body r |}, None)
  end.

Definition serverError (httpResp : Response) : option error :=
  let '(body, readErr) := ReadBody httpResp in
  match readErr with
  | Some _ => readErr
  | None =>
      Some (fmt_Errorf ("Error from server: " +:+ fmt_d (StatusCode httpResp) +:+ " " +:+ body))
  end.

(* ------------------------------------------------------------------ *)
(** ** encoding/xml: documents and the decoding of a list page *)
(* ------------------------------------------------------------------ *)

Record xml_Name : Type := { Space : string; Local : string }.

#[warnings="-register-all"] Inductive xml_Node : Type :=
| xml_Element (name : xml_Name) (children : list xml_Node)
| xml_CharData (data : string).

Record bucketContents : Type := { Key : string }.

Record listBucketResult : Type := {
  XMLName : xml_Name;
  Contents : list bucketContents
}.

(** A string field receives the concatenation of the character data that is
    directly inside the element. *)
Definition charData (children : list xml_Node) : string :=
  fold_right (fun n acc => match n with
                           | xml_CharData d => d +:+ acc
                           | xml_Element _ _ => acc
                           end) "" children.

(** A struct field without a tag matches the sub-elements whose local name
    is the field's name; a string field is assigned at every match, a slice
    field is extended at every match. *)
Definition unmarshal_bucketContents (children : list xml_Node) : bucketContents :=
  fold_left (fun v n => match n with
                        | xml_Element nm ch =>
                            if String.eqb (Local nm) "Key" then {| Key := charData ch |} else v
                        | xml_CharData _ => v
                        end) children {| Key := "" |}.

Definition unmarshal_listBucketResult (name : xml_Name) (children : list xml_Node)
  : listBucketResult :=
  {| XMLName := name;
     Contents :=
       fold_left (fun cs n => match n with
                              | xml_Element nm ch =>
                                  if String.eqb (Local nm) "Contents"
                                  then cs ++ [unmarshal_bucketContents ch] else cs
                              | xml_CharData _ => cs
                              end) children [] |}.

(** The loop [for i, elem := range result.Contents { keys[i] = elem.Key }]. *)
Fixpoint fillKeys (i : nat) (contents : list bucketContents) (keys : list string) : list string :=
  match contents with
  | [] => keys
  | elem :: rest => fillKeys (S i) rest (<[i := Key elem]> keys)
  end.

(* ------------------------------------------------------------------ *)
(** ** The bucket and its collaborators *)
(* ------------------------------------------------------------------ *)

(** A [time.Time], represented by what [.UTC().Format(time.RFC1123)] prints
    for it. *)
Record Time : Type := { UTC_RFC1123 : string }.

(** The calls that reach the external collaborators, with the request each
    was given and what it returned.  The types of [Response] and [Call] are
    declared before the section so that the log does not depend on the state
    of the world. *)
Inductive Call : Type :=
| Signer_Sign (r : Request) (err : option error)
| Conn_SendRequest (r : Request) (res : Response + error).

Section Bucket.

(** The state of the world outside the bucket: whatever the signer, the
    connection and the clock depend on and change. *)
Context {W : Type}.

(** [xml.Unmarshal] reads the first element of the document: the decoder
    returns its name and children, or a syntax error. *)
Variable xml_Decode : string -> (xml_Name * list xml_Node) + error.

(** [Sign] may change the request it is given. *)
Record Signer : Type := { Sign : Request -> W -> (Request * option error) * W }.
Record Conn : Type := { SendRequest : Request -> W -> (Response + error) * W }.
Record Clock : Type := { Now : W -> Time * W }.

Record bucket : Type := {
  name : string;
  httpConn : Conn;
  signer : Signer;
  clock : Clock
}.

Record State : Type := { world : W; calls : list Call }.

(** An operation runs in a state, returns its results and leaves a state. *)
Definition Op (A : Type) : Type := State -> A * State.

#[local] Instance Op_ret : MRet Op := fun A a st => (a, st).
#[local] Instance Op_bind : MBind Op :=
  fun A B f m st => let '(a, st') := m st in f a st'.

Definition clock_Now (b : bucket) : Op Time :=
  fun st => let '(t, w) := Now (clock b) (world st) in
            (t, {| world := w; calls := calls st |}).

Definition signer_Sign (b : bucket) (r : Request) : Op (Request * option error) :=
  fun st => let '(res, w) := Sign (signer b) r (world st) in
            (res, {| world := w; calls := calls st ++ [Signer_Sign r (snd res)] |}).

Definition httpConn_SendRequest (b : bucket) (r : Request) : Op (Response + error) :=
  fun st => let '(res, w) := SendRequest (httpConn b) r (world st) in
            (res, {| world := w; calls := calls st ++ [Conn_SendRequest r res] |}).

Definition xml_Unmarshal (body : string) : listBucketResult * option error :=
  match xml_Decode body with
  | inl (nm, children) => (unmarshal_listBucketResult nm children, None)
  | inr e => ({| XMLName := {| Space := ""; Local := "" |}; Contents := [] |}, Some e)
  end.

(** Sign the request and send it: the part every operation shares, with the
    wrapping of the two errors. *)
Definition signAndSend (b : bucket) (httpReq : Request) : Op (Response + error) :=
  '(httpReq, err) ← signer_Sign b httpReq;
  match err with
  | Some err => mret (inr (fmt_Errorf ("Sign: " +:+ Error err)))
  | None =>
      r ← httpConn_SendRequest b httpReq;
      match r with
      | inr err => mret (inr (fmt_Errorf ("SendRequest: " +:+ Error err)))
      | inl httpResp => mret (inl httpResp)
      end
  end.

Definition dateHeader (now : Time) : gmap string string :=
  {[ "Date" := UTC_RFC1123 now ]}.

Definition GetObject (b : bucket) (key : string) : Op (string * option error) :=
  match validateKey key with
  | Some err => mret ("", Some err)
  | None =>
      now ← clock_Now b;
      let httpReq := {| Verb := "GET";
                        Path := "/" +:+ name b +:+ "/" +:+ key;
                        Headers := dateHeader now;
                        Parameters := ∅;
                        Body := nil_Reader |} in
      r ← signAndSend b httpReq;
      match r with
      | inr err => mret ("", Some err)
      | inl httpResp =>
          if negb (StatusCode httpResp =? 200)%Z
          then mret ("", serverError httpResp)
          else mret (ReadBody httpResp)
      end
  end.

Definition GetHeader (b : bucket) (key : string) : Op (sys_http_Header * option error) :=
  match validateKey key with
  | Some err => mret (None, Some err)
  | None =>
      now ← clock_Now b;
      let httpReq := {| Verb := "HEAD";
                        Path := "/" +:+ name b +:+ "/" +:+ key;
                        Headers := dateHeader now;
                        Parameters := ∅;
                        Body := nil_Reader |} in
      r ← signAndSend b httpReq;
      match r with
      | inr err => mret (None, Some err)
      | inl httpResp =>
          if negb (StatusCode httpResp =? 200)%Z
          then mret (Header httpResp, serverError httpResp)
          else mret (Header httpResp, None)
      end
  end.

Definition StoreObject (b : bucket) (key : string) (data : string) : Op (option error) :=
  match validateKey key with
  | Some err => mret (Some err)
  | None =>
      now ← clock_Now b;
      let httpReq := {| Verb := "PUT";
                        Path := "/" +:+ name b +:+ "/" +:+ key;
                        Headers := dateHeader now;
                        Parameters := ∅;
                        Body := bytes_NewBuffer data |} in
      let '(httpReq, err) := addMd5Header httpReq data in
      match err with
      | Some err => mret (Some err)
      | None =>
          r ← signAndSend b httpReq;
          match r with
          | inr err => mret (Some err)
          | inl httpResp =>
              if negb (StatusCode httpResp =? 200)%Z
              then mret (serverError httpResp)
              else mret None
          end
      end
  end.

Definition DeleteObject (b : bucket) (key : string) : Op (option error) :=
  match validateKey key with
  | Some err => mret (Some err)
  | None =>
      now ← clock_Now b;
      let httpReq := {| Verb := "DELETE";
                        Path := "/" +:+ name b +:+ "/" +:+ key;
                        Headers := dateHeader now;
                        Parameters := ∅;
                        Body := nil_Reader |} in
      let '(httpReq, err) := addMd5Header httpReq "" in
      match err with
      | Some err => mret (Some err)
      | None =>
          r ← signAndSend b httpReq;
          match r with
          | inr err => mret (Some err)
          | inl httpResp =>
              if negb (StatusCode httpResp =? 204)%Z
              then mret (serverError httpResp)
              else mret None
          end
      end
  end.

Definition Put {R : Type} `{ReadSeeker R} (b : bucket) (key : string) (data : R)
  : Op (option error) :=
  match validateKey key with
  | Some err => mret (Some err)
  | None =>
      let '((contentMD5, err), data) := encodeMD5 data in
      match err with
      | Some err => mret (Some err)
      | None =>
          now ← clock_Now b;
          let httpReq := {| Verb := "PUT";
                            Path := "/" +:+ name b +:+ "/" +:+ key;
                            Headers := <["Content-MD5" := contentMD5]> (dateHeader now);
                            Parameters := ∅;
                            Body := of_ReadSeeker data |} in
          r ← signAndSend b httpReq;
          match r with
          | inr err => mret (Some err)
          | inl httpResp =>
              if negb (StatusCode httpResp =? 200)%Z
              then mret (serverError httpResp)
              else mret None
          end
      end
  end.

Definition ListKeys (b : bucket) (prevKey : string) : Op (list string * option error) :=
  (* the condition [err != nil && prevKey != ""] *)
  let rejected :=
    match validateKey prevKey with
    | Some err => if negb (String.eqb prevKey "") then Some err else None
    | None => None
    end in
  match rejected with
  | Some err => mret ([], Some err)
  | None =>
      now ← clock_Now b;
      let httpReq := {| Verb := "GET";
                        Path := "/" +:+ name b;
                        Headers := dateHeader now;
                        Parameters := ∅;
                        Body := nil_Reader |} in
      let httpReq :=
        if negb (String.eqb prevKey "")
        then {| Verb := Verb httpReq; Path := Path httpReq; Headers := Headers httpReq;
                Parameters := <["marker" := prevKey]> (Parameters httpReq);
                Body := Body httpReq |}
        else httpReq in
      r ← signAndSend b httpReq;
      match r with
      | inr err => mret ([], Some err)
      | inl httpResp =>
          if negb (StatusCode httpResp =? 200)%Z
          then mret ([], serverError httpResp)
          else
            let '(body, err) := ReadBody httpResp in
            match err with
            | Some _ => mret ([], err)
            | None =>
                let '(result, err) := xml_Unmarshal body in
                match err with
                | Some err =>
                    mret ([], Some (fmt_Errorf ("Invalid data from server (" +:+ Error err
                                                +:+ "): " +:+ body)))
                | None =>
                    if negb (String.eqb (Local (XMLName result)) "ListBucketResult")
                    then mret ([], Some (fmt_Errorf ("Invalid data from server: "
                                                     +:+ rc_format (RespBody httpResp))))
                    else
                      let keys := replicate (length (Contents result)) "" in
                      let keys := fillKeys 0 (Contents result) keys in
                      mret (keys, None)
                end
            end
      end
  end.

End Bucket.

(* ------------------------------------------------------------------ *)
(** ** net/url and the query string of a request (s3/http/conn.go) *)
(* ------------------------------------------------------------------ *)

Module url.
Local Open Scope Z_scope.

(** [shouldEscape(c, encodeQueryComponent)]: only the unreserved characters
    of RFC 3986 are left as they are. *)
Definition shouldEscape (c : Z) : bool :=
  if ((0x61 <=? c) && (c <=? 0x7A)) || ((0x41 <=? c) && (c <=? 0x5A))
     || ((0x30 <=? c) && (c <=? 0x39)) then false
  else if (c =? 0x2D) || (c =? 0x5F) || (c =? 0x2E) || (c =? 0x7E) then false
  else true.

(** [QueryEscape]: a space becomes [+], every other byte that must be
    escaped becomes [%XX] with upper-case digits. *)
Fixpoint QueryEscape (s : string) : string :=
  match s with
  | EmptyString => EmptyString
  | String c s' =>
      let b := byteZ c in
      if shouldEscape b then
        if b =? 0x20 then String "+"%char (QueryEscape s')
        else String "%"%char (String (hexDigit (b / 16)) (String (hexDigit (b mod 16))
                                                                  (QueryEscape s')))
      else String c (QueryEscape s')
  end.

(** [url.Values] and [Values.Set]. *)
Abbreviation Values := (gmap string (list string)).

Definition Set_ (v : Values) (key value : string) : Values := <[key := [value]]> v.

(** [sort.Strings] on the keys: insertion into a list that is kept in
    increasing byte order. *)
Fixpoint insertKey (k : string) (l : list string) : list string :=
  match l with
  | [] => [k]
  | k' :: l' => if String.leb k k' then k :: l else k' :: insertKey k l'
  end.

Definition sortedKeys (v : Values) : list string :=
  fold_right insertKey [] (map fst (map_to_list v)).

(** [Values.Encode]: the keys in sorted order, [key=value] pairs joined by
    [&]. *)
Definition Encode (v : Values) : string :=
  fold_left (fun buf k =>
    let keyEscaped := QueryEscape k in
    fold_left (fun buf val =>
      (if (0 <? String.length buf)%nat then buf +:+ "&" else buf)
        +:+ keyEscaped +:+ "=" +:+ QueryEscape val)
      (default [] (v !! k)) buf)
    (sortedKeys v) "".

End url.

Definition makeRawQuery (r : Request) : string :=
  let values :=
    map_fold (fun key val values => url.Set_ values key val) (∅ : url.Values) (Parameters r) in
  url.Encode values.

(* ------------------------------------------------------------------ *)
(** ** What the specification refers to *)
(* ------------------------------------------------------------------ *)

Section Specification.
Local Open Scope Z_scope.

(** The character table of XML 1.0, section 2.2, which the documentation of
    [Bucket] refers to. *)
Definition xml10_Char (r : Z) : Prop :=
  r = 0x09 \/ r = 0x0A \/ r = 0x0D \/
  (0x20 <= r <= 0xD7FF) \/ (0xE000 <= r <= 0xFFFD) \/ (0x10000 <= r <= 0x10FFFF).

(** The surrogate block of UTF-16. *)
Definition nonSurrogate (r : Z) : Prop := ~ (0xD800 <= r <= 0xDFFF).

(** The key validation of the specification: [validateKey] with the table
    of XML 1.0 in its last rule. *)
Definition isXml10Char (r : Z) : bool :=
  (r =? 0x09) || (r =? 0x0A) || (r =? 0x0D) ||
  ((r >=? 0x20) && (r <=? 0xD7FF)) ||
  ((r >=? 0xE000) && (r <=? 0xFFFD)) ||
  ((r >=? 0x10000) && (r <=? 0x10FFFF)).

Fixpoint checkRunes_xml10 (rs : list Z) : option error :=
  match rs with
  | [] => None
  | r :: rs' =>
      if negb (isXml10Char r)
      then Some (fmt_Errorf ("Key contains invalid codepoint: " +:+ fmt_U r))
      else checkRunes_xml10 rs'
  end.

Definition validateKey_xml10 (key : string) : option error :=
  if (1024 <? String.length key)%nat then
    Some (fmt_Errorf "Keys may be no longer than 1024 bytes.")
  else if negb (utf8.ValidString key) then
    Some (fmt_Errorf "Keys must be valid UTF-8.")
  else if String.eqb key "" then
    Some (fmt_Errorf "Keys must be non-empty.")
  else checkRunes_xml10 (utf8.runes key).

End Specification.

(** The keys of a document, read off the document: the character data of
    the [Key] elements under an element, and, for the root, the keys under
    its [Contents] elements, in document order. *)
Definition elementKeys (children : list xml_Node) : list string :=
  flat_map (fun n => match n with
                     | xml_Element nm ch =>
                         if String.eqb (Local nm) "Key" then [charData ch] else []
                     | xml_CharData _ => []
                     end) children.

Definition documentKeys (children : list xml_Node) : list string :=
  flat_map (fun n => match n with
                     | xml_Element nm ch =>
                         if String.eqb (Local nm) "Contents" then elementKeys ch else []
                     | xml_CharData _ => []
                     end) children.

(** A well-formed list page: every [Contents] element holds one [Key]. *)
Definition wellFormedPage (children : list xml_Node) : Prop :=
  Forall (fun n => match n with
                   | xml_Element nm ch =>
                       Local nm = "Contents" -> length (elementKeys ch) = 1%nat
                   | xml_CharData _ => True
                   end) children.

(* ------------------------------------------------------------------ *)
(** ** Test doubles *)
(* ------------------------------------------------------------------ *)

(** A decoder for the part of XML the list pages use: processing
    instructions and comments are skipped, tags nest, attributes are ignored,
    everything else is character data.  It instantiates [xml_Decode] where a
    concrete document is decoded. *)
Module xmltest.

Inductive token : Type :=
| StartElement (nm : string) (selfClosing : bool)
| EndElement (nm : string)
| CharData (data : string).

Definition isSpace (c : ascii) : bool :=
  let b := byteZ c in ((b =? 0x20) || (b =? 0x09) || (b =? 0x0A) || (b =? 0x0D))%Z.

Fixpoint tagName (raw : list ascii) : list ascii :=
  match raw with
  | [] => []
  | c :: raw' => if isSpace c || Ascii.eqb c "/" then [] else c :: tagName raw'
  end.

(** What stands between [<] and [>]. *)
Definition classify (raw : list ascii) : list token :=
  match raw with
  | "?"%char :: _ => []
  | "!"%char :: _ => []
  | "/"%char :: rest => [EndElement (string_of_chars (tagName rest))]
  | _ => [StartElement (string_of_chars (tagName raw))
                       (match last raw with Some "/"%char => true | _ => false end)]
  end.

(** One character at a time: [inTag] tells whether a [<] is open, [buf]
    holds the characters since the last delimiter in reverse. *)
Fixpoint tokens (inTag : bool) (buf : list ascii) (s : string) : option (list token) :=
  match s with
  | EmptyString =>
      if inTag then None
      else Some (match buf with [] => [] | _ => [CharData (string_of_chars (rev buf))] end)
  | String c s' =>
      if inTag then
        if Ascii.eqb c ">" then (classify (rev buf) ++.) <$> tokens false [] s'
        else tokens true (c :: buf) s'
      else
        if Ascii.eqb c "<"
        then (match buf with [] => [] | _ => [CharData (string_of_chars (rev buf))] end ++.)
               <$> tokens true [] s'
        else tokens false (c :: buf) s'
  end.

Definition mkName (nm : string) : xml_Name := {| Space := ""; Local := nm |}.

(** The open elements, innermost first, each with its children so far in
    reverse.  The first element that closes at the top is the result. *)
Fixpoint build (ts : list token) (open : list (string * list xml_Node))
  : (xml_Name * list xml_Node) + error :=
  match ts with
  | [] => inr (match open with
               | [] => io_EOF
               | _ => errors_New "XML syntax error: unexpected EOF"
               end)
  | CharData d :: ts' =>
      match open with
      | [] => build ts' []
      | (nm, ch) :: rest => build ts' ((nm, xml_CharData d :: ch) :: rest)
      end
  | StartElement nm false :: ts' => build ts' ((nm, []) :: open)
  | StartElement nm true :: ts' =>
      match open with
      | [] => inl (mkName nm, [])
      | (p, ch) :: rest => build ts' ((p, xml_Element (mkName nm) [] :: ch) :: rest)
      end
  | EndElement nm :: ts' =>
      match open with
      | [] => inr (errors_New ("XML syntax error: unexpected end element </" +:+ nm +:+ ">"))
      | (nm', ch) :: rest =>
          if negb (String.eqb nm nm')
          then inr (errors_New ("XML syntax error: element <" +:+ nm' +:+ "> closed by </"
                                +:+ nm +:+ ">"))
          else
            match rest with
            | [] => inl (mkName nm', rev ch)
            | (p, pch) :: rest' =>
                build ts' ((p, xml_Element (mkName nm') (rev ch) :: pch) :: rest')
            end
      end
  end.

Definition Decode (body : string) : (xml_Name * list xml_Node) + error :=
  match tokens false [] body with
  | None => inr (errors_New "XML syntax error: unexpected EOF")
  | Some ts => build ts []
  end.

End xmltest.

(** The collaborators the tests inject: a signer that accepts (or refuses)
    every request, a connection that answers every request with the same
    response (or fails), and a clock that stands still.  The world they live
    in has no state. *)
Definition acceptingSigner : @Signer unit :=
  {| Sign := fun r w => ((r, None), w) |}.

Definition refusingSigner (e : error) : @Signer unit :=
  {| Sign := fun r w => ((r, Some e), w) |}.

Definition answeringConn (resp : Response) : @Conn unit :=
  {| SendRequest := fun _ w => (inl resp, w) |}.

Definition fakeClock : @Clock unit :=
  {| Now := fun w => ({| UTC_RFC1123 := "Mon, 18 Mar 1985 15:33:17 UTC" |}, w) |}.

Definition openBucket (name : string) (httpConn : @Conn unit) (signer : @Signer unit)
  (clock : @Clock unit) : @bucket unit :=
  {| name := name; httpConn := httpConn; signer := signer; clock := clock |}.

Definition start : @State unit := {| world := tt; calls := [] |}.

(** [stringReadCloser(s)] of the tests, [ioutil.NopCloser(strings.NewReader(s))]:
    a stream that delivers [s].  For this wrapper [%s] prints the struct with
    the reader inside it, and for the reader its fields: the string, the
    offset reached and the previous rune. *)
Definition stringReadCloser (s : string) : ReadCloser :=
  {| rc_data := s; rc_failure := None;
     rc_format := "{%!s(*strings.Reader=&{" +:+ s +:+ " "
                  +:+ fmt_d (Z.of_nat (String.length s)) +:+ " -1})}" |}.

(** The body of a response that comes from the network, as [conn.SendRequest]
    passes it on ([Body: sysResp.Body]): [%s] prints the fields of the stream
    struct of net/http (pointers, a mutex, flags), none of which holds the
    bytes that were read. *)
Definition networkBody (s : string) : ReadCloser :=
  {| rc_data := s; rc_failure := None;
     rc_format := "&{%!s(*http.body=&{0xc0001a2040 <nil> <nil> false false {0 0} true false "
                  +:+ "false 0x6b3180}) {%!s(int32=0) %!s(uint32=0)} %!s(bool=false) <nil> "
                  +:+ "%!s(func(error) error=0x6b3ea0) %!s(func() error=0x6b3e40)}" |}.

(** A stream that breaks before its end. *)
Definition brokenReadCloser (s : string) (e : error) : ReadCloser :=
  {| rc_data := s; rc_failure := Some e; rc_format := rc_format (networkBody s) |}.

Definition nl : string := String (ascii_of_nat 10) EmptyString.

Definition wrongRootBody : string :=
  nl +:+ "<?xml version='1.0' encoding='UTF-8'?>" +:+ nl +:+
  "<FooBar xmlns='http://s3.amazonaws.com/doc/2006-03-01/'>" +:+ nl +:+
  "  <Contents>" +:+ nl +:+
  "    <Key>some_key</Key>" +:+ nl +:+
  "  </Contents>" +:+ nl +:+
  "</FooBar>".

Definition noKeysBody : string :=
  nl +:+ "<?xml version='1.0' encoding='UTF-8'?>" +:+ nl +:+
  "<ListBucketResult xmlns='http://s3.amazonaws.com/doc/2006-03-01/'>" +:+ nl +:+
  "</ListBucketResult>".

Definition someKeysBody : string :=
  nl +:+ "<?xml version='1.0' encoding='UTF-8'?>" +:+ nl +:+
  "<ListBucketResult xmlns='http://s3.amazonaws.com/doc/2006-03-01/'>" +:+ nl +:+
  "  <Contents>" +:+ nl +:+
  "    <Key>bar</Key>" +:+ nl +:+
  "  </Contents>" +:+ nl +:+
  "  <Contents>" +:+ nl +:+
  "    <Key>baz</Key>" +:+ nl +:+
  "  </Contents>" +:+ nl +:+
  "</ListBucketResult>".

(** [&http.Response{StatusCode: code, Body: body}]. *)
Definition respond (code : Z) (body : ReadCloser) : Response :=
  {| StatusCode := code; Header := None; RespBody := body |}.

(** The bucket of the tests, with a connection that answers [resp]. *)
Definition someBucket (resp : Response) : @bucket unit :=
  openBucket "some.bucket" (answeringConn resp) acceptingSigner fakeClock.

(** A key with a NUL byte in it, as in the tests. *)
Definition nullByteKey : string := "taco" +:+ bytesOf [0%Z] +:+ "burrito".

(** The error of a read from a failing disk. *)
Definition diskFailure : error := errors_New "read /data/object: input/output error".

(** A stream whose reads fail after the second byte. *)
Definition failingBody : reader := faultyReader "taco" 2 diskFailure.

(** A response whose body cannot be read to its end. *)
Definition resetResponse : Response :=
  respond 500 (brokenReadCloser "ta" (errors_New "read tcp: connection reset by peer")).

(** A response with headers and a status that is not 200. *)
Definition notFound : Response :=
  {| StatusCode := 404;
     Header := Some {[ "Content-Type" := ["application/xml"] ]};
     RespBody := stringReadCloser "NoSuchKey" |}.

(** The message of an error result, empty for nil. *)
Definition messageOf (err : option error) : string :=
  match err with
  | Some e => Error e
  | None => ""
  end.

(** The requests that reached the signer, in order. *)
Definition signed (cs : list Call) : list Request :=
  flat_map (fun c => match c with
                     | Signer_Sign r _ => [r]
                     | Conn_SendRequest _ _ => []
                     end) cs.

(** The bucket of the tests with a signer that refuses, which is how the
    tests look at the request an operation builds. *)
Definition refusingBucket : @bucket unit :=
  openBucket "some.bucket" (answeringConn (respond 200 (stringReadCloser "")))
             (refusingSigner (errors_New "")) fakeClock.

Definition deadbeef : string := bytesOf [0x00; 0xde; 0xad; 0xbe; 0xef]%Z.

(** The parameters of the escaping test: the first name is two Hangul
    syllables, written here as the bytes of their UTF-8 encoding. *)
Definition taco_ko : string := bytesOf [0xED; 0x83; 0x80; 0xEC; 0xBD; 0x94]%Z.

Definition escapingRequest : Request :=
  {| Verb := "GET"; Path := "/"; Headers := ∅;
     Parameters := <[taco_ko := "burrito"]> (<["b&az=" := "qu ?x"]> ∅);
     Body := nil_Reader |}.

(* ------------------------------------------------------------------ *)
(** ** Connections (s3/http/conn.go) and the opening of a bucket (bucket.go) *)
(* ------------------------------------------------------------------ *)

(** The fields of a [url.URL] that the code sets. *)
Record url_URL : Type := {
  Scheme : string;
  Host : string;
  URLPath : string;
  RawQuery : string
}.

Record conn : Type := { endpoint : url_URL }.

(** [NewConn]: the [switch] on the scheme has an empty case for the two
    schemes that are supported.  Of the two results the function sets one:
    the error in the default case, the connection otherwise. *)
Definition NewConn (endpoint : url_URL) : conn + error :=
  if String.eqb (Scheme endpoint) "http" || String.eqb (Scheme endpoint) "https"
  then inl {| endpoint := endpoint |}
  else inr (fmt_Errorf ("Unsupported scheme: " +:+ Scheme endpoint)).

Module s3.
Section Open.
Context {W : Type}.

(** [aws.AccessKey], [auth.NewSigner] and [time.RealClock] belong to packages
    that are not among the sources, and the method [SendRequest] of [*conn]
    talks to the network through net/http: they are taken as they come. *)
Variable AccessKey : Type.
Variable auth_NewSigner : AccessKey -> @Signer W + error.
Variable time_RealClock : @Clock W.
Variable conn_SendRequest : conn -> Request -> W -> (Response + error) * W.

(** A [*conn] as a value of the interface [Conn]. *)
Definition asConn (c : conn) : @Conn W := {| SendRequest := conn_SendRequest c |}.

Definition openBucket (name : string) (httpConn : @Conn W) (signer : @Signer W)
  (clock : @Clock W) : @bucket W + error :=
  inl {| name := name; httpConn := httpConn; signer := signer; clock := clock |}.

(** A [Region] is the host name of its endpoint. *)
Definition OpenBucket (name : string) (region : string) (key : AccessKey)
  : @bucket W + error :=
  (* Create a connection to the given region's endpoint. *)
  let endpoint := {| Scheme := "https"; Host := region; URLPath := ""; RawQuery := "" |} in
  match NewConn endpoint with
  | inr err => inr (fmt_Errorf ("http.NewConn: " +:+ Error err))
  | inl httpConn =>
      (* Create an appropriate request signer. *)
      match auth_NewSigner key with
      | inr err => inr (fmt_Errorf ("auth.NewSigner: " +:+ Error err))
      | inl signer => openBucket name (asConn httpConn) signer time_RealClock
      end
  end.

End Open.
End s3.

(* ------------------------------------------------------------------ *)
(** ** The operations of a bucket, taken together *)
(* ------------------------------------------------------------------ *)

(** A call of one of the six operations, with its arguments. *)
Inductive operation : Type :=
| opGetObject (key : string)
| opGetHeader (key : string)
| opStoreObject (key : string) (data : string)
| opDeleteObject (key : string)
| opPut {R : Type} `{ReadSeeker R} (key : string) (data : R)
| opListKeys (prevKey : string).

(** The error result of the call and the state it leaves. *)
Definition errorOf {W : Type} (xml_Decode : string -> (xml_Name * list xml_Node) + error)
  (b : @bucket W) (op : operation) (st : @State W) : option error * @State W :=
  match op with
  | opGetObject key => (snd (fst (GetObject b key st)), snd (GetObject b key st))
  | opGetHeader key => (snd (fst (GetHeader b key st)), snd (GetHeader b key st))
  | opStoreObject key data => StoreObject b key data st
  | opDeleteObject key => DeleteObject b key st
  | opPut key data => Put b key data st
  | opListKeys prevKey =>
      (snd (fst (ListKeys xml_Decode b prevKey st)), snd (ListKeys xml_Decode b prevKey st))
  end.

(** The request of an operation on an object: the path is the name of the
    bucket and the key as they are, without escaping, and there are no
    parameters. *)
Definition objectRequest {W : Type} (b : @bucket W) (verb key : string)
  (headers : gmap string string) (body : io_Reader) : Request :=
  {| Verb := verb; Path := "/" +:+ name b +:+ "/" +:+ key; Headers := headers;
     Parameters := ∅; Body := body |}.

(** The status each operation compares the status of the response with. *)
Definition successStatus (op : operation) : Z :=
  match op with
  | opDeleteObject _ => 204
  | _ => 200
  end.

(** The calls one operation may make: none; one call of the signer, which
    refuses; or one call of the signer, which accepts, followed by one call
    of the connection with the request as the signer left it. *)
Definition oneExchange {W : Type} (b : @bucket W) (l : list Call) : Prop :=
  l = [] \/
  (exists r e w,
      l = [Signer_Sign r (Some e)] /\ snd (fst (Sign (signer b) r w)) = Some e) \/
  (exists r r' res w w' w'',
      l = [Signer_Sign r None; Conn_SendRequest r' res] /\
      Sign (signer b) r w = ((r', None), w') /\
      SendRequest (httpConn b) r' w' = (res, w'')).

(* ------------------------------------------------------------------ *)
(** ** Reading a query string back *)
(* ------------------------------------------------------------------ *)

(** The strings of a list, with [&] between them. *)
Fixpoint joinAmp (l : list string) : string :=
  match l with
  | [] => ""
  | [x] => x
  | x :: l' => x +:+ "&" +:+ joinAmp l'
  end.

(** One parameter as [Values.Encode] writes it. *)
Definition pairString (kv : string * string) : string :=
  url.QueryEscape (fst kv) +:+ "=" +:+ url.QueryEscape (snd kv).

(** The value of a hexadecimal digit. *)
Definition unhex (c : ascii) : Z :=
  let b := byteZ c in
  if (b <? 0x3A)%Z then (b - 0x30)%Z else (b - 0x37)%Z.

(** The inverse of [url.QueryEscape] on what it writes: [+] is a space and
    [%XX] is the byte with that value. *)
Fixpoint unescape (s : string) : string :=
  match s with
  | EmptyString => EmptyString
  | String c s1 =>
      if Ascii.eqb c "+" then String " "%char (unescape s1)
      else if Ascii.eqb c "%" then
        match s1 with
        | String h (String l s3) =>
            String (ascii_of_N (Z.to_N (unhex h * 16 + unhex l))) (unescape s3)
        | _ => String c (unescape s1)
        end
      else String c (unescape s1)
  end.

(** The pieces of [s] between the occurrences of [sep]; [cur] holds the
    characters of the piece that is being read, in reverse. *)
Fixpoint splitOn (sep : ascii) (cur : list ascii) (s : string) : list string :=
  match s with
  | EmptyString => [string_of_chars (rev cur)]
  | String c s' =>
      if Ascii.eqb c sep then string_of_chars (rev cur) :: splitOn sep [] s'
      else splitOn sep (c :: cur) s'
  end.

(** The name and the value of one [name=value] piece. *)
Fixpoint splitPair (cur : list ascii) (s : string) : string * string :=
  match s with
  | EmptyString => (string_of_chars (rev cur), "")
  | String c s' =>
      if Ascii.eqb c "=" then (string_of_chars (rev cur), s')
      else splitPair (c :: cur) s'
  end.

(** The parameters a server reads out of a query string. *)
Definition parseQuery (q : string) : list (string * string) :=
  match q with
  | EmptyString => []
  | _ => map (fun piece => let '(k, v) := splitPair [] piece in (unescape k, unescape v))
             (splitOn "&" [] q)
  end.

(** The characters [url.QueryEscape] writes. *)
Definition isQueryChar (c : ascii) : bool :=
  negb (url.shouldEscape (byteZ c)) || Ascii.eqb c "+" || Ascii.eqb c "%".

(** The parameters of a request in the order in which [Values.Encode]
    writes them. *)
Definition sortedParameters (m : gmap string string) : list (string * string) :=
  map (fun k => (k, default "" (m !! k))) (url.sortedKeys ((fun v => [v]) <$> m)).

(** A stream that cannot seek, as a pipe: [Read] delivers what is left at
    once, [Seek] fails. *)
Record pipe : Type := { pipe_data : string }.

Definition pipe_Read (p : pipe) : (string * option error) * pipe :=
  match pipe_data p with
  | EmptyString => (("", Some io_EOF), p)
  | d => ((d, None), {| pipe_data := "" |})
  end.

Definition pipe_Seek (p : pipe) (offset whence : Z) : (Z * option error) * pipe :=
  ((0%Z, Some (errors_New "seek |0: illegal seek")), p).

Lemma pipe_Read_pendingReads (s : pipe) (p : string) (s' : pipe) :
  pipe_Read s = ((p, None), s') ->
  (String.length (pipe_data s') < String.length (pipe_data s))%nat.
Proof.
  unfold pipe_Read. destruct (pipe_data s) as [|c d]; [discriminate|].
  intros [= _ <-]. simpl. lia.
Qed.

#[export] Instance pipe_ReadSeeker : ReadSeeker pipe := {|
  Read := pipe_Read;
  Seek := pipe_Seek;
  pendingReads := fun p => String.length (pipe_data p);
  Read_pendingReads := pipe_Read_pendingReads
|}.

(** A connection that fails, as when the host cannot be reached. *)
Definition failingConn (e : error) : @Conn unit :=
  {| SendRequest := fun _ w => (inr e, w) |}.

Definition noSuchHost : error := errors_New "dial tcp: lookup s3.example.com: no such host".

(** The children of the [Contents] elements of a page, in document order. *)
Definition contentsElements (children : list xml_Node) : list (list xml_Node) :=
  flat_map (fun n => match n with
                     | xml_Element nm ch =>
                         if String.eqb (Local nm) "Contents" then [ch] else []
                     | xml_CharData _ => []
                     end) children.

(** A page with a [Contents] element that has no [Key] and one that has
    two. *)
Definition oddKeysBody : string :=
  "<ListBucketResult>" +:+
  "<Contents><Size>3</Size></Contents>" +:+
  "<Contents><Key>bar</Key><Key>baz</Key></Contents>" +:+
  "</ListBucketResult>".

(* ================================================================== *)
(** * Properties *)
(* ================================================================== *)

(* ------------------------------------------------------------------ *)
(** ** Substrings *)
(* ------------------------------------------------------------------ *)

Lemma append_cons (c : ascii) (s t : string) : String c s +:+ t = String c (s +:+ t).
Proof. reflexivity. Qed.

Lemma append_nil_r (s : string) : s +:+ "" = s.
Proof.
  induction s as [|c s IH]; [reflexivity | now rewrite append_cons, IH].
Qed.

Lemma append_assoc (s t u : string) : (s +:+ t) +:+ u = s +:+ (t +:+ u).
Proof.
  induction s as [|c s IH]; [reflexivity | now rewrite !append_cons, IH].
Qed.

Lemma HasPrefix_spec (s pre : string) :
  HasPrefix s pre = true <-> exists post, s = pre +:+ post.
Proof.
  revert s; induction pre as [|p pre IH]; intros s; simpl.
  - split; [intros _; now exists s | reflexivity].
  - destruct s as [|c s].
    + split; [discriminate | intros [post H]; discriminate H].
    + destruct (Ascii.eqb_spec p c) as [->|Hne].
      * rewrite IH. split; intros [post H]; exists post.
        -- now rewrite append_cons, H.
        -- rewrite append_cons in H. now injection H.
      * split; [discriminate | intros [post H]; rewrite append_cons in H; injection H; congruence].
Qed.

Lemma Contains_spec (s sub : string) :
  Contains s sub = true <-> HasSubstr sub s.
Proof.
  unfold HasSubstr. induction s as [|c s IH]; simpl.
  - rewrite orb_false_r, HasPrefix_spec. split.
    + intros [post H]. now exists "", post.
    + intros [pre [post H]]. destruct pre; [now exists post | discriminate H].
  - rewrite orb_true_iff, HasPrefix_spec, IH. split.
    + intros [[post H] | [pre [post H]]].
      * now exists "", post.
      * exists (String c pre), post. now rewrite append_cons, H.
    + intros [[|c' pre] [post H]].
      * left. now exists post.
      * right. exists pre, post. rewrite append_cons in H. now injection H.
Qed.

Lemma HasSubstr_middle (pre sub post : string) : HasSubstr sub (pre +:+ sub +:+ post).
Proof. now exists pre, post. Qed.

Lemma not_Contains (s sub : string) : Contains s sub = false -> ~ HasSubstr sub s.
Proof. intros H Hs. apply Contains_spec in Hs. congruence. Qed.

(* ------------------------------------------------------------------ *)
(** ** The legal-character predicate *)
(* ------------------------------------------------------------------ *)

Section LegalCharacters.
Local Open Scope Z_scope.

(** What the predicate of the code accepts: the table of XML 1.0 and, in
    addition, the code points from U+D800 to U+DF77. *)
Lemma isLegalXmlCharacter_iff (r : Z) :
  isLegalXmlCharacter r = true <-> xml10_Char r \/ 0xD800 <= r <= 0xDF77.
Proof.
  unfold isLegalXmlCharacter, xml10_Char.
  rewrite !orb_true_iff, !andb_true_iff, !Z.eqb_eq, !Z.geb_le, !Z.leb_le. lia.
Qed.

(** C1, at the code point U+D800: the predicate of the code accepts it, the
    table of XML 1.0 (tab, line feed, carriage return, U+0020 to U+D7FF,
    U+E000 to U+FFFD, U+10000 to U+10FFFF) does not contain it.  The upper
    bound of the first range in the code is 0xDF77 where the table has
    0xD7FF. *)
Theorem isLegalXmlCharacter_accepts_surrogate :
  isLegalXmlCharacter 0xD800 = true /\ ~ xml10_Char 0xD800.
Proof. split; [reflexivity | unfold xml10_Char; lia]. Qed.

End LegalCharacters.

(* ------------------------------------------------------------------ *)
(** ** Decoded runes are never surrogates *)
(* ------------------------------------------------------------------ *)

Section DecodedRunes.
Local Open Scope Z_scope.

Lemma byteZ_range (c : ascii) : 0 <= byteZ c < 256.
Proof.
  unfold byteZ. pose proof (N_ascii_bounded c) as H. lia.
Qed.

Lemma lor_shiftl_add (hi lo n : Z) :
  0 <= n -> 0 <= lo < 2 ^ n -> Z.lor (Z.shiftl hi n) lo = hi * 2 ^ n + lo.
Proof.
  intros Hn Hlo.
  pose proof (Z.add_lor_land (Z.shiftl hi n) lo) as Hadd.
  assert (Z.land (Z.shiftl hi n) lo = 0) as Hdisj.
  { apply Z.bits_inj'. intros m Hm.
    rewrite Z.land_spec, Z.bits_0.
    destruct (Z.lt_ge_cases m n) as [Hlt|Hge].
    - now rewrite Z.shiftl_spec_low.
    - rewrite <- (Z.mod_small lo (2 ^ n)) by lia.
      rewrite Z.mod_pow2_bits_high by lia. apply andb_false_r. }
  rewrite Hdisj, Z.shiftl_mul_pow2 in Hadd by lia.
  rewrite Z.shiftl_mul_pow2 by lia. lia.
Qed.

Ltac eval_pow2 :=
  repeat match goal with
         | |- context [2 ^ ?k] =>
             let v := eval vm_compute in (2 ^ k) in change (2 ^ k) with v
         end.

Lemma land_maskx (b : Z) : Z.land b utf8.maskx = b mod 64.
Proof. change utf8.maskx with (Z.ones 6). now rewrite Z.land_ones. Qed.

Ltac zlia := Z.div_mod_to_equations; lia.

Lemma rune2_eq (s0 s1 : Z) :
  utf8.rune2 s0 s1 = (s0 mod 32) * 64 + s1 mod 64.
Proof.
  unfold utf8.rune2. rewrite land_maskx.
  change utf8.mask2 with (Z.ones 5). rewrite Z.land_ones by lia.
  rewrite lor_shiftl_add; eval_pow2; zlia.
Qed.

Lemma rune3_eq (s0 s1 s2 : Z) :
  utf8.rune3 s0 s1 s2 = (s0 mod 16) * 4096 + (s1 mod 64) * 64 + s2 mod 64.
Proof.
  unfold utf8.rune3. rewrite !land_maskx.
  change utf8.mask3 with (Z.ones 4). rewrite Z.land_ones by lia.
  rewrite (Z.shiftl_mul_pow2 (s1 mod 64)) by lia.
  rewrite (lor_shiftl_add _ (s1 mod 64 * 2 ^ 6)) by (eval_pow2; zlia).
  replace (s0 mod 2 ^ 4 * 2 ^ 12 + s1 mod 64 * 2 ^ 6)
    with ((s0 mod 2 ^ 4 * 64 + s1 mod 64) * 2 ^ 6) by (eval_pow2; zlia).
  rewrite <- (Z.shiftl_mul_pow2 _ 6) by lia.
  rewrite lor_shiftl_add; eval_pow2; zlia.
Qed.

Lemma rune4_eq (s0 s1 s2 s3 : Z) :
  utf8.rune4 s0 s1 s2 s3 =
  (s0 mod 8) * 262144 + (s1 mod 64) * 4096 + (s2 mod 64) * 64 + s3 mod 64.
Proof.
  unfold utf8.rune4. rewrite !land_maskx.
  change utf8.mask4 with (Z.ones 3). rewrite Z.land_ones by lia.
  rewrite (Z.shiftl_mul_pow2 (s1 mod 64)) by lia.
  rewrite (lor_shiftl_add _ (s1 mod 64 * 2 ^ 12)) by (eval_pow2; zlia).
  rewrite (Z.shiftl_mul_pow2 (s2 mod 64)) by lia.
  replace (s0 mod 2 ^ 3 * 2 ^ 18 + s1 mod 64 * 2 ^ 12)
    with ((s0 mod 2 ^ 3 * 64 + s1 mod 64) * 2 ^ 12) by (eval_pow2; zlia).
  rewrite <- (Z.shiftl_mul_pow2 _ 12) by lia.
  rewrite (lor_shiftl_add _ (s2 mod 64 * 2 ^ 6)) by (eval_pow2; zlia).
  replace ((s0 mod 2 ^ 3 * 64 + s1 mod 64) * 2 ^ 12 + s2 mod 64 * 2 ^ 6)
    with (((s0 mod 2 ^ 3 * 64 + s1 mod 64) * 64 + s2 mod 64) * 2 ^ 6) by (eval_pow2; zlia).
  rewrite <- (Z.shiftl_mul_pow2 _ 6) by lia.
  rewrite lor_shiftl_add; eval_pow2; zlia.
Qed.

Lemma first_cases (b : Z) :
  match utf8.first b with
  | utf8.ASCII => b < 0x80
  | utf8.Invalid => True
  | utf8.Multi sz lo hi =>
      (sz = 2%nat /\ 0xC2 <= b <= 0xDF /\ lo = 0x80 /\ hi = 0xBF) \/
      (sz = 3%nat /\ b = 0xE0 /\ lo = 0xA0 /\ hi = 0xBF) \/
      (sz = 3%nat /\ 0xE1 <= b <= 0xEC /\ lo = 0x80 /\ hi = 0xBF) \/
      (sz = 3%nat /\ b = 0xED /\ lo = 0x80 /\ hi = 0x9F) \/
      (sz = 3%nat /\ 0xEE <= b <= 0xEF /\ lo = 0x80 /\ hi = 0xBF) \/
      (sz = 4%nat /\ b = 0xF0 /\ lo = 0x90 /\ hi = 0xBF) \/
      (sz = 4%nat /\ 0xF1 <= b <= 0xF3 /\ lo = 0x80 /\ hi = 0xBF) \/
      (sz = 4%nat /\ b = 0xF4 /\ lo = 0x80 /\ hi = 0x8F)
  end.
Proof.
  unfold utf8.first.
  repeat match goal with
         | |- context [?x <? ?y] => destruct (Z.ltb_spec x y)
         | |- context [?x =? ?y] => destruct (Z.eqb_spec x y)
         end; try exact I; lia.
Qed.

Lemma outside_false (lo hi b : Z) : utf8.outside lo hi b = false -> lo <= b <= hi.
Proof. unfold utf8.outside. rewrite orb_false_iff, !Z.ltb_ge. lia. Qed.

(** Whatever the bytes of [s] are, a [range] loop over [s] never sees a
    code point of the surrogate block: a well-formed sequence cannot encode
    one, and an ill-formed sequence is reported as U+FFFD. *)
Lemma decode_nonSurrogate (s : string) :
  Forall (fun rw => nonSurrogate (fst rw)) (utf8.decode s).
Proof.
  remember (String.length s) as n eqn:Hn. revert s Hn.
  induction n as [n IH] using lt_wf_ind. intros s ->.
  assert (Htail : forall t, (String.length t < String.length s)%nat ->
                            Forall (fun rw => nonSurrogate (fst rw)) (utf8.decode t))
    by (intros t Ht; now apply (IH _ Ht)).
  clear IH.
  assert (Herr : nonSurrogate utf8.RuneError) by (unfold nonSurrogate, utf8.RuneError; lia).
  destruct s as [|c0 t1]; [constructor|]. cbn [utf8.decode].
  pose proof (byteZ_range c0) as H0. pose proof (first_cases (byteZ c0)) as Hf.
  destruct (utf8.first (byteZ c0)) as [| |sz lo hi].
  - constructor; [unfold nonSurrogate; simpl; lia | apply Htail; simpl; lia].
  - constructor; [exact Herr | apply Htail; simpl; lia].
  - destruct t1 as [|c1 t2]; [constructor; [exact Herr | constructor]|].
    pose proof (byteZ_range c1) as H1.
    destruct (utf8.outside lo hi (byteZ c1)) eqn:Ho1;
      [constructor; [exact Herr | apply Htail; simpl; lia]|].
    apply outside_false in Ho1.
    destruct (sz <=? 2)%nat eqn:Hsz2.
    { constructor; [|apply Htail; simpl; lia].
      unfold nonSurrogate; simpl. rewrite rune2_eq. zlia. }
    apply Nat.leb_gt in Hsz2.
    destruct t2 as [|c2 t3]; [constructor; [exact Herr | apply Htail; simpl; lia]|].
    pose proof (byteZ_range c2) as H2.
    destruct (utf8.outside utf8.locb utf8.hicb (byteZ c2)) eqn:Ho2;
      [constructor; [exact Herr | apply Htail; simpl; lia]|].
    apply outside_false in Ho2. unfold utf8.locb, utf8.hicb in Ho2.
    destruct (sz <=? 3)%nat eqn:Hsz3.
    { constructor; [|apply Htail; simpl; lia].
      apply Nat.leb_le in Hsz3.
      unfold nonSurrogate; simpl. rewrite rune3_eq.
      destruct Hf as [Hf|[Hf|[Hf|[Hf|[Hf|[Hf|[Hf|Hf]]]]]]];
        destruct Hf as (Hs & Hb & -> & ->); try lia; zlia. }
    apply Nat.leb_gt in Hsz3.
    destruct t3 as [|c3 t4]; [constructor; [exact Herr | apply Htail; simpl; lia]|].
    pose proof (byteZ_range c3) as H3.
    destruct (utf8.outside utf8.locb utf8.hicb (byteZ c3)) eqn:Ho3;
      [constructor; [exact Herr | apply Htail; simpl; lia]|].
    apply outside_false in Ho3. unfold utf8.locb, utf8.hicb in Ho3.
    constructor; [|apply Htail; simpl; lia].
    unfold nonSurrogate; simpl. rewrite rune4_eq.
    destruct Hf as [Hf|[Hf|[Hf|[Hf|[Hf|[Hf|[Hf|Hf]]]]]]];
      destruct Hf as (Hs & Hb & -> & ->); try lia; zlia.
Qed.

Lemma runes_nonSurrogate (s : string) : Forall nonSurrogate (utf8.runes s).
Proof.
  unfold utf8.runes. apply Forall_map. apply decode_nonSurrogate.
Qed.

Lemma isXml10Char_iff (r : Z) : isXml10Char r = true <-> xml10_Char r.
Proof.
  unfold isXml10Char, xml10_Char.
  rewrite !orb_true_iff, !andb_true_iff, !Z.eqb_eq, !Z.geb_le, !Z.leb_le. lia.
Qed.

Lemma isLegalXmlCharacter_nonSurrogate (r : Z) :
  nonSurrogate r -> isLegalXmlCharacter r = isXml10Char r.
Proof.
  intros Hr. apply eq_true_iff_eq.
  rewrite isLegalXmlCharacter_iff, isXml10Char_iff.
  unfold nonSurrogate, xml10_Char in *. lia.
Qed.

(** On keys the slip in the constant cannot be observed: [validateKey]
    returns what the validation with the table of XML 1.0 returns. *)
Lemma validateKey_xml10_eq (key : string) : validateKey key = validateKey_xml10 key.
Proof.
  unfold validateKey, validateKey_xml10.
  destruct (1024 <? String.length key)%nat; [reflexivity|].
  destruct (negb (utf8.ValidString key)); [reflexivity|].
  destruct (String.eqb key ""); [reflexivity|].
  induction (runes_nonSurrogate key) as [|r rs Hr _ IH]; [reflexivity|].
  simpl. rewrite (isLegalXmlCharacter_nonSurrogate r Hr), IH. reflexivity.
Qed.

(** The last rule of [validateKey], on a key that passes the first three:
    the key is accepted exactly when every code point of it is in the table
    of XML 1.0, and otherwise the error names a code point of the key that is
    not. *)
Lemma checkRunes_xml10_None (rs : list Z) :
  checkRunes_xml10 rs = None <-> Forall xml10_Char rs.
Proof.
  induction rs as [|r rs IH]; simpl.
  - split; [constructor | reflexivity].
  - destruct (isXml10Char r) eqn:Hr; simpl.
    + rewrite IH. apply isXml10Char_iff in Hr. split.
      * now constructor.
      * now inversion 1.
    + split; [discriminate|]. inversion 1 as [|? ? Hx _]; subst.
      apply isXml10Char_iff in Hx. congruence.
Qed.

Lemma checkRunes_xml10_Some (rs : list Z) (e : error) :
  checkRunes_xml10 rs = Some e ->
  exists r, In r rs /\ ~ xml10_Char r /\
            Error e = "Key contains invalid codepoint: " +:+ fmt_U r.
Proof.
  induction rs as [|r rs IH]; simpl; [discriminate|].
  destruct (isXml10Char r) eqn:Hr; simpl.
  - intros He. destruct (IH He) as (r' & Hin & Hx & Hmsg). exists r'. auto.
  - intros [= <-]. exists r. split; [now left|]. split; [|reflexivity].
    rewrite <- isXml10Char_iff. congruence.
Qed.

Lemma validateKey_codepoints (key : string) :
  (String.length key <= 1024)%nat -> utf8.ValidString key = true -> key <> "" ->
  (validateKey key = None <-> Forall xml10_Char (utf8.runes key)) /\
  (forall e, validateKey key = Some e ->
     exists r, In r (utf8.runes key) /\ ~ xml10_Char r /\
               HasSubstr (fmt_U r) (Error e)).
Proof.
  intros Hlen Hvalid Hne. rewrite validateKey_xml10_eq. unfold validateKey_xml10.
  apply Nat.ltb_ge in Hlen. apply String.eqb_neq in Hne.
  rewrite Hlen, Hvalid, Hne. simpl. split.
  - apply checkRunes_xml10_None.
  - intros e He. destruct (checkRunes_xml10_Some _ _ He) as (r & Hin & Hx & Hmsg).
    exists r. split; [exact Hin|]. split; [exact Hx|].
    rewrite Hmsg. exists "Key contains invalid codepoint: ", "".
    now rewrite append_nil_r.
Qed.

End DecodedRunes.

(* ------------------------------------------------------------------ *)
(** ** Calls to the collaborators *)
(* ------------------------------------------------------------------ *)

Ltac run_op := unfold mbind, mret, Op_bind, Op_ret in *.

Section Calls.
Context {W : Type}.
Implicit Types (b : @bucket W) (st : @State W).

Lemma clock_Now_calls b st : calls (snd (clock_Now b st)) = calls st.
Proof. unfold clock_Now. now destruct (Now (clock b) (world st)). Qed.

(** What [signAndSend] leaves in the log: the call of the signer and, when
    the signer accepted, the call of the connection with the request as the
    signer left it. *)
Lemma signAndSend_calls b (req : Request) st :
  (exists e,
      fst (signAndSend b req st) = inr (fmt_Errorf ("Sign: " +:+ Error e)) /\
      calls (snd (signAndSend b req st)) = calls st ++ [Signer_Sign req (Some e)]) \/
  (exists req' res,
      calls (snd (signAndSend b req st)) =
        calls st ++ [Signer_Sign req None; Conn_SendRequest req' res] /\
      fst (signAndSend b req st) =
        match res with
        | inl resp => inl resp
        | inr e => inr (fmt_Errorf ("SendRequest: " +:+ Error e))
        end).
Proof.
  unfold signAndSend, signer_Sign, httpConn_SendRequest. run_op.
  destruct (Sign (signer b) req (world st)) as [[req' [e|]] w]; simpl.
  - left. now exists e.
  - right. destruct (SendRequest (httpConn b) req' w) as [res w'] eqn:Hs; simpl.
    exists req', res. rewrite <- app_assoc. simpl.
    destruct res; simpl; auto.
Qed.

(** The response that ends the log of [signAndSend] is its result. *)
Lemma signAndSend_response b (req : Request) st (l : list Call) (r : Request)
  (resp : Response) :
  calls (snd (signAndSend b req st)) = calls st ++ l ->
  last l = Some (Conn_SendRequest r (inl resp)) ->
  fst (signAndSend b req st) = inl resp.
Proof.
  intros Hl Hlast.
  destruct (signAndSend_calls b req st) as [(e & _ & Hc) | (req' & res & Hc & Hr)];
    rewrite Hc in Hl; apply app_inv_head in Hl; subst l; simpl in Hlast.
  - discriminate.
  - injection Hlast as _ ->. exact Hr.
Qed.

(** The first call [signAndSend] makes is [Sign], on the request it was
    given. *)
Lemma signAndSend_first b (req : Request) st :
  exists err rest,
    calls (snd (signAndSend b req st)) = calls st ++ Signer_Sign req err :: rest.
Proof.
  destruct (signAndSend_calls b req st) as [(e & _ & Hc) | (req' & res & Hc & _)];
    rewrite Hc; eauto.
Qed.

End Calls.

(* ------------------------------------------------------------------ *)
(** ** Validation comes first *)
(* ------------------------------------------------------------------ *)

(** C2: when the key (for [ListKeys], the non-empty marker) fails validation,
    each of the six operations returns the validation error and leaves the
    state as it found it: the world of the collaborators is untouched and the
    log of calls has no new [Sign] or [SendRequest]. *)
Theorem invalid_key_no_call {W R : Type} `{ReadSeeker R}
  (xml_Decode : string -> (xml_Name * list xml_Node) + error)
  (b : @bucket W) (key : string) (e : error) (data : string) (body : R) (st : @State W) :
  validateKey key = Some e ->
  GetObject b key st = (("", Some e), st) /\
  GetHeader b key st = ((None, Some e), st) /\
  StoreObject b key data st = (Some e, st) /\
  DeleteObject b key st = (Some e, st) /\
  Put b key body st = (Some e, st) /\
  (key <> "" -> ListKeys xml_Decode b key st = (([], Some e), st)).
Proof.
  intros Hv.
  unfold GetObject, GetHeader, StoreObject, DeleteObject, Put, ListKeys.
  rewrite Hv. repeat split.
  intros Hne. apply String.eqb_neq in Hne. now rewrite Hne.
Qed.

Lemma invalid_key_no_call_witness :
  validateKey nullByteKey
    = Some (errors_New "Key contains invalid codepoint: U+0000") /\
  DeleteObject (someBucket (respond 204 (stringReadCloser ""))) nullByteKey start
    = (Some (errors_New "Key contains invalid codepoint: U+0000"), start).
Proof.
  split; [reflexivity|].
  destruct (invalid_key_no_call xmltest.Decode (someBucket (respond 204 (stringReadCloser "")))
              nullByteKey (errors_New "Key contains invalid codepoint: U+0000")
              "" (bytes_NewReader "") start eq_refl) as (_ & _ & _ & Hdel & _).
  exact Hdel.
Defined.

(* ------------------------------------------------------------------ *)
(** ** The content-integrity helper: errors and the stream position *)
(* ------------------------------------------------------------------ *)

Section EncodeMD5.
Context {R : Type} `{ReadSeeker R}.

(** The bound [io_Copy] gives to its loop is never reached: any larger
    number of reads gives the same copy. *)
Lemma copyLoop_enough (n m : nat) (dst : string) (src : R) :
  (pendingReads src < n)%nat -> (n <= m)%nat ->
  copyLoop m dst src = copyLoop n dst src.
Proof.
  revert m dst src. induction n as [|n IH]; intros m dst src Hlt Hle; [lia|].
  destruct m as [|m]; [lia|]. simpl.
  destruct (Read src) as [[p [e|]] src'] eqn:Hr; [reflexivity|].
  apply IH; [|lia]. apply Read_pendingReads in Hr. lia.
Qed.

(** The three ways [encodeMD5] returns.  When the first [Seek] fails, its
    error is returned and nothing else is done.  Otherwise the deferred
    closure runs last, and the error [encodeMD5] returns is the error of the
    second [Seek], whatever the copy returned. *)
Lemma encodeMD5_first_seek_fails (body body1 : R) (n : Z) (e : error) :
  Seek body 0 0 = ((n, Some e), body1) ->
  encodeMD5 body = (("", Some e), body1).
Proof. intros Hs. unfold encodeMD5. now rewrite Hs. Qed.

Lemma encodeMD5_copy_fails (body body1 body2 body3 : R) (n n' : Z) (h : string)
  (e : error) (err : option error) :
  Seek body 0 0 = ((n, None), body1) ->
  io_Copy md5_New body1 = ((h, Some e), body2) ->
  Seek body2 0 0 = ((n', err), body3) ->
  encodeMD5 body = (("", err), body3).
Proof.
  intros Hs Hc Hs'. unfold encodeMD5, encodeMD5_deferred. now rewrite Hs, Hc, Hs'.
Qed.

Lemma encodeMD5_copy_succeeds (body body1 body2 body3 : R) (n n' : Z) (h : string)
  (err : option error) :
  Seek body 0 0 = ((n, None), body1) ->
  io_Copy md5_New body1 = ((h, None), body2) ->
  Seek body2 0 0 = ((n', err), body3) ->
  encodeMD5 body = ((base64.EncodeToString (md5.Sum h), err), body3).
Proof.
  intros Hs Hc Hs'. unfold encodeMD5, encodeMD5_deferred, base64Encoder_Write.
  now rewrite Hs, Hc, Hs'.
Qed.

(** [io.Copy] keeps every property of the stream that [Read] keeps. *)
Lemma io_Copy_invariant (Inv : R -> Prop) (dst : string) (src : R) :
  (forall s, Inv s -> Inv (snd (Read s))) ->
  Inv src -> Inv (snd (io_Copy dst src)).
Proof.
  intros Hread. unfold io_Copy. generalize (S (pendingReads src)) as n.
  intros n. revert dst src. induction n as [|n IH]; intros dst src Hsrc; simpl; [exact Hsrc|].
  specialize (Hread src Hsrc).
  destruct (Read src) as [[p [[|msg]|]] src']; simpl in *; auto.
Qed.

(** C9: a seekable stream is one whose states (the ones it goes through,
    [Inv]) all accept [Seek(0, 0)], which leaves the stream at position 0.
    For such a stream [encodeMD5] leaves the stream at position 0 whether the
    digest was computed or the copy into the hash failed. *)
Theorem encodeMD5_rewinds (position : R -> Z) (Inv : R -> Prop) :
  (forall s, Inv s ->
     exists n s', Seek s 0 0 = ((n, None), s') /\ Inv s' /\ position s' = 0%Z) ->
  (forall s, Inv s -> Inv (snd (Read s))) ->
  forall body, Inv body -> position (snd (encodeMD5 body)) = 0%Z.
Proof.
  intros Hseek Hread body Hbody.
  destruct (Hseek body Hbody) as (n & body1 & Hs & Hbody1 & _).
  pose proof (io_Copy_invariant Inv md5_New body1 Hread Hbody1) as Hbody2.
  destruct (io_Copy md5_New body1) as [[h err] body2] eqn:Hc. simpl in Hbody2.
  destruct (Hseek body2 Hbody2) as (n' & body3 & Hs' & _ & Hpos).
  destruct err as [e|].
  - now rewrite (encodeMD5_copy_fails _ _ _ _ _ _ _ _ _ Hs Hc Hs').
  - now rewrite (encodeMD5_copy_succeeds _ _ _ _ _ _ _ _ Hs Hc Hs').
Qed.

(** Without any assumption on [Seek]: when [encodeMD5] returns no error, the
    last thing it did to the stream was a successful [Seek(0, 0)]. *)
Lemma encodeMD5_nil_error (body body' : R) (result : string) :
  encodeMD5 body = ((result, None), body') ->
  exists s n, Seek s 0 0 = ((n, None), body').
Proof.
  unfold encodeMD5, encodeMD5_deferred, base64Encoder_Write.
  destruct (Seek body 0 0) as [[n [e|]] body1]; [discriminate|].
  destruct (io_Copy md5_New body1) as [[h [e|]] body2];
    destruct (Seek body2 0 0) as [[n' err] body3] eqn:Hs'; simpl;
    intros [= _ -> <-]; eauto.
Qed.

End EncodeMD5.

Lemma reader_Seek_start (s : reader) :
  exists n s', Seek s 0 0 = ((n, None), s') /\ True /\ r_i s' = 0%Z.
Proof. eexists _, _. repeat split. Qed.

Lemma encodeMD5_rewinds_witness :
  r_i (snd (encodeMD5 failingBody)) = 0%Z /\
  r_i (snd (encodeMD5 (bytes_NewReader "taco"))) = 0%Z.
Proof.
  split;
    apply (encodeMD5_rewinds r_i (fun _ => True)
             (fun s _ => reader_Seek_start s) (fun _ _ => I)); exact I.
Defined.

(** The stream [Put] puts into the request is the stream as [encodeMD5] left
    it: with the theorem on the position, a seekable stream reaches the
    signer, and through it the connection, at position 0. *)
Lemma Put_hands_over {W R : Type} `{ReadSeeker R} (b : @bucket W) (key : string)
  (data : R) (st : @State W) :
  validateKey key = None ->
  snd (fst (encodeMD5 data)) = None ->
  exists r err rest,
    calls (snd (Put b key data st)) = calls st ++ Signer_Sign r err :: rest /\
    Body r = of_ReadSeeker (snd (encodeMD5 data)).
Proof.
  intros Hvalid Hmd5. unfold Put. rewrite Hvalid.
  destruct (encodeMD5 data) as [[contentMD5 err] data']. simpl in Hmd5. subst err.
  run_op. pose proof (clock_Now_calls b st) as Hclock.
  destruct (clock_Now b st) as [now st1]. simpl in Hclock.
  match goal with
  | |- context [signAndSend b ?req st1] =>
      destruct (signAndSend_first b req st1) as (err & rest & Hfirst);
      destruct (signAndSend b req st1) as [res st2];
      exists req, err, rest
  end.
  simpl in Hfirst. rewrite Hclock in Hfirst. split; [|reflexivity].
  repeat (try exact Hfirst;
          match goal with
          | |- context [match ?x with _ => _ end] => destruct x; simpl
          end).
Qed.

(** C3, on a stream whose reads fail: the copy into the hash returns the
    read error, yet [encodeMD5] returns an empty digest and a nil error,
    because the deferred closure assigns the result of the rewinding [Seek]
    to the named result [err].  [Put] then goes on: it signs and sends a
    request whose [Content-MD5] header is empty, and returns nil. *)
Theorem encodeMD5_swallows_read_failure :
  snd (fst (io_Copy md5_New failingBody)) = Some diskFailure /\
  fst (encodeMD5 failingBody) = ("", None) /\
  exists r : Request,
    Put (someBucket (respond 200 (stringReadCloser ""))) "a" failingBody start
      = (None, {| world := tt;
                  calls := [Signer_Sign r None;
                            Conn_SendRequest r (inl (respond 200 (stringReadCloser "")))] |}) /\
    Headers r !! "Content-MD5" = Some "".
Proof.
  split; [reflexivity|]. split; [reflexivity|].
  eexists. split; [vm_compute; reflexivity | reflexivity].
Qed.

(* ------------------------------------------------------------------ *)
(** ** Interpreting the response *)
(* ------------------------------------------------------------------ *)

Lemma encodeMD5_empty :
  fst (encodeMD5 (bytes_NewReader "")) = ("1B2M2Y8AsgTpgAmY7PhCfg==", None).
Proof. vm_compute. reflexivity. Qed.

Lemma serverError_readable (resp : Response) :
  rc_failure (RespBody resp) = None ->
  serverError resp =
    Some (errors_New ("Error from server: " +:+ fmt_d (StatusCode resp) +:+ " "
                      +:+ rc_data (RespBody resp))).
Proof. intros Hr. unfold serverError, ReadBody. now rewrite Hr. Qed.

Lemma serverError_unreadable (resp : Response) (e : error) :
  rc_failure (RespBody resp) = Some e -> serverError resp = Some e.
Proof. intros Hr. unfold serverError, ReadBody. now rewrite Hr. Qed.

Lemma serverError_is_Some (resp : Response) : exists e, serverError resp = Some e.
Proof.
  destruct (rc_failure (RespBody resp)) as [e|] eqn:Hr.
  - exists e. now apply serverError_unreadable.
  - eexists. now apply serverError_readable.
Qed.

Section Responses.
Context {W : Type}.
Implicit Types (b : @bucket W) (st : @State W).

(** An operation that left no call in the log did not receive a response. *)
Lemma no_call_no_response st (l : list Call) (c : Call) :
  calls st = calls st ++ l -> last l = Some c -> False.
Proof.
  intros Hl Hlast. rewrite <- (app_nil_r (calls st)) in Hl at 1.
  apply app_inv_head in Hl. subst l. discriminate.
Qed.

(** What [DeleteObject] returns once the connection has answered. *)
Lemma DeleteObject_response b (key : string) st (l : list Call) (r : Request)
  (resp : Response) :
  calls (snd (DeleteObject b key st)) = calls st ++ l ->
  last l = Some (Conn_SendRequest r (inl resp)) ->
  fst (DeleteObject b key st) =
    if negb (StatusCode resp =? 204)%Z then serverError resp else None.
Proof.
  unfold DeleteObject. destruct (validateKey key) as [e|].
  { simpl. intros Hl Hlast. destruct (no_call_no_response _ _ _ Hl Hlast). }
  run_op. pose proof (clock_Now_calls b st) as Hclock.
  destruct (clock_Now b st) as [now st1]. simpl in Hclock.
  unfold addMd5Header.
  destruct (encodeMD5 (bytes_NewReader "")) as [[bodyMD5 err] body'] eqn:Hmd5.
  apply (f_equal fst) in Hmd5. rewrite encodeMD5_empty in Hmd5.
  injection Hmd5 as <- <-.
  match goal with
  | |- context [signAndSend b ?req st1] =>
      pose proof (signAndSend_response b req st1 l r resp) as Hresp;
      destruct (signAndSend b req st1) as [res st2]
  end.
  simpl in Hresp. rewrite Hclock in Hresp.
  destruct res as [resp'|e]; simpl.
  - destruct (negb (StatusCode resp' =? 204)%Z) eqn:Hcode; simpl;
      intros Hl Hlast; injection (Hresp Hl Hlast) as ->; now rewrite Hcode.
  - intros Hl Hlast. discriminate (Hresp Hl Hlast).
Qed.

(** C5, as the code has it: once the connection has answered [DeleteObject]
    with a response, status 204 gives a nil error; any other status gives,
    when the body of the response can be read, an error whose message
    contains the status code in decimal and the whole body, and, when
    reading the body fails, the error of that read. *)
Theorem DeleteObject_status b (key : string) st (l : list Call) (r : Request)
  (resp : Response) :
  calls (snd (DeleteObject b key st)) = calls st ++ l ->
  last l = Some (Conn_SendRequest r (inl resp)) ->
  (StatusCode resp = 204%Z -> fst (DeleteObject b key st) = None) /\
  (StatusCode resp <> 204%Z -> rc_failure (RespBody resp) = None ->
   exists msg, fst (DeleteObject b key st) = Some (errors_New msg) /\
               HasSubstr (fmt_d (StatusCode resp)) msg /\
               HasSubstr (rc_data (RespBody resp)) msg) /\
  (StatusCode resp <> 204%Z -> forall e, rc_failure (RespBody resp) = Some e ->
   fst (DeleteObject b key st) = Some e).
Proof.
  intros Hl Hlast. rewrite (DeleteObject_response b key st l r resp Hl Hlast).
  repeat split.
  - intros ->. reflexivity.
  - intros Hcode Hread. apply Z.eqb_neq in Hcode. rewrite Hcode. simpl.
    rewrite (serverError_readable resp Hread). eexists. split; [reflexivity|]. split.
    + apply HasSubstr_middle.
    + exists ("Error from server: " +:+ fmt_d (StatusCode resp) +:+ " "), "".
      now rewrite append_nil_r, !append_assoc.
  - intros Hcode e Hread. apply Z.eqb_neq in Hcode. rewrite Hcode. simpl.
    now apply serverError_unreadable.
Qed.

(** C10: once the connection has answered [GetHeader] with a response, the
    header mapping of the response is returned, with the error of
    [serverError] (never nil) when the status is not 200 and with a nil error
    when it is 200. *)
Theorem GetHeader_returns_header b (key : string) st (l : list Call) (r : Request)
  (resp : Response) :
  calls (snd (GetHeader b key st)) = calls st ++ l ->
  last l = Some (Conn_SendRequest r (inl resp)) ->
  (StatusCode resp <> 200%Z ->
   exists e, serverError resp = Some e /\
             fst (GetHeader b key st) = (Header resp, Some e)) /\
  (StatusCode resp = 200%Z -> fst (GetHeader b key st) = (Header resp, None)).
Proof.
  unfold GetHeader. destruct (validateKey key) as [e|].
  { simpl. intros Hl Hlast. destruct (no_call_no_response _ _ _ Hl Hlast). }
  run_op. pose proof (clock_Now_calls b st) as Hclock.
  destruct (clock_Now b st) as [now st1]. simpl in Hclock.
  match goal with
  | |- context [signAndSend b ?req st1] =>
      pose proof (signAndSend_response b req st1 l r resp) as Hresp;
      destruct (signAndSend b req st1) as [res st2]
  end.
  simpl in Hresp. rewrite Hclock in Hresp.
  destruct res as [resp'|e]; simpl.
  - destruct (Z.eqb_spec (StatusCode resp') 200) as [Hcode|Hcode]; simpl;
      intros Hl Hlast; injection (Hresp Hl Hlast) as ->.
    + split; [congruence | reflexivity].
    + split; [|congruence].
      intros _. destruct (serverError_is_Some resp) as [e He]. exists e. now rewrite He.
  - intros Hl Hlast. discriminate (Hresp Hl Hlast).
Qed.

End Responses.

(** C5 as stated fails on a response whose body cannot be read: the status
    is 500 and the error [DeleteObject] returns is the read error, whose
    message contains neither the status code nor the body. *)
Lemma DeleteObject_unreadable_body :
  (exists r, last (calls (snd (DeleteObject (someBucket resetResponse) "a" start)))
             = Some (Conn_SendRequest r (inl resetResponse))) /\
  StatusCode resetResponse = 500%Z /\
  ~ (exists e, fst (DeleteObject (someBucket resetResponse) "a" start) = Some e /\
               HasSubstr "500" (Error e) /\
               HasSubstr (rc_data (RespBody resetResponse)) (Error e)).
Proof.
  split; [eexists; vm_compute; reflexivity|]. split; [reflexivity|].
  intros (e & He & H500 & _). vm_compute in He. injection He as <-.
  revert H500. apply not_Contains. vm_compute. reflexivity.
Qed.

Lemma DeleteObject_status_witness :
  fst (DeleteObject (someBucket (respond 204 (stringReadCloser "taco"))) "a" start) = None /\
  (exists msg,
      fst (DeleteObject (someBucket (respond 500 (stringReadCloser "taco"))) "a" start)
        = Some (errors_New msg) /\
      HasSubstr "500" msg /\ HasSubstr "taco" msg) /\
  fst (DeleteObject (someBucket resetResponse) "a" start)
    = Some (errors_New "read tcp: connection reset by peer").
Proof.
  split; [|split].
  - edestruct (DeleteObject_status (someBucket (respond 204 (stringReadCloser "taco"))) "a" start)
      as (Hok & _ & _); [vm_compute; reflexivity | reflexivity |].
    apply Hok. reflexivity.
  - edestruct (DeleteObject_status (someBucket (respond 500 (stringReadCloser "taco"))) "a" start)
      as (_ & Herr & _); [vm_compute; reflexivity | reflexivity |].
    apply Herr; [simpl; lia | reflexivity].
  - edestruct (DeleteObject_status (someBucket resetResponse) "a" start)
      as (_ & _ & Hread); [vm_compute; reflexivity | reflexivity |].
    apply Hread; [simpl; lia | reflexivity].
Defined.

Lemma GetHeader_returns_header_witness :
  fst (GetHeader (someBucket notFound) "a" start)
    = (Some {[ "Content-Type" := ["application/xml"] ]},
       Some (errors_New "Error from server: 404 NoSuchKey")).
Proof.
  destruct (GetHeader_returns_header (someBucket notFound) "a" start
              [Signer_Sign
                 {| Verb := "HEAD"; Path := "/some.bucket/a";
                    Headers := dateHeader {| UTC_RFC1123 := "Mon, 18 Mar 1985 15:33:17 UTC" |};
                    Parameters := ∅; Body := nil_Reader |} None;
               Conn_SendRequest
                 {| Verb := "HEAD"; Path := "/some.bucket/a";
                    Headers := dateHeader {| UTC_RFC1123 := "Mon, 18 Mar 1985 15:33:17 UTC" |};
                    Parameters := ∅; Body := nil_Reader |} (inl notFound)]
              {| Verb := "HEAD"; Path := "/some.bucket/a";
                 Headers := dateHeader {| UTC_RFC1123 := "Mon, 18 Mar 1985 15:33:17 UTC" |};
                 Parameters := ∅; Body := nil_Reader |}
              notFound eq_refl eq_refl) as [Hne _].
  destruct (Hne ltac:(simpl; lia)) as (e & He & Hres).
  rewrite Hres. f_equal. rewrite <- He. reflexivity.
Defined.

(* ------------------------------------------------------------------ *)
(** ** Listing: the request *)
(* ------------------------------------------------------------------ *)

Lemma validateKey_empty : validateKey "" = Some (errors_New "Keys must be non-empty.").
Proof. reflexivity. Qed.

Section ListRequest.
Context {W : Type}.
Variable xml_Decode : string -> (xml_Name * list xml_Node) + error.
Implicit Types (b : @bucket W) (st : @State W).

(** The request [ListKeys] hands to the signer when it accepts [prevKey]. *)
Lemma ListKeys_accepted b (prevKey : string) st :
  prevKey = "" \/ validateKey prevKey = None ->
  exists r err rest,
    calls (snd (ListKeys xml_Decode b prevKey st)) = calls st ++ Signer_Sign r err :: rest /\
    Verb r = "GET" /\ Path r = "/" +:+ name b /\
    Parameters r = if String.eqb prevKey "" then ∅ else {[ "marker" := prevKey ]}.
Proof.
  intros Hok. unfold ListKeys.
  assert (match validateKey prevKey with
          | Some err => if negb (String.eqb prevKey "") then Some err else None
          | None => None
          end = None) as ->.
  { destruct Hok as [-> | ->]; reflexivity. }
  run_op. pose proof (clock_Now_calls b st) as Hclock.
  destruct (clock_Now b st) as [now st1]. simpl in Hclock.
  match goal with
  | |- context [signAndSend b ?req st1] =>
      destruct (signAndSend_first b req st1) as (err & rest & Hfirst);
      destruct (signAndSend b req st1) as [res st2];
      exists req, err, rest
  end.
  simpl in Hfirst. rewrite Hclock in Hfirst.
  split; [|destruct (String.eqb prevKey ""); simpl; auto using insert_empty].
  unfold ReadBody.
  repeat (try exact Hfirst;
          match goal with
          | |- context [match ?x with _ => _ end] => destruct x; simpl
          end).
Qed.

(** C6: [ListKeys("")] hands the signer a GET request for the bucket path
    that has no query parameter, so no [marker]; for a non-empty [prevKey]
    that passes key validation the parameters of the request are exactly
    [marker = prevKey], not escaped; a non-empty [prevKey] that fails key
    validation is rejected with the validation error before a request
    reaches the signer or the connection. *)
Theorem ListKeys_marker b st :
  (exists r err rest,
      calls (snd (ListKeys xml_Decode b "" st)) = calls st ++ Signer_Sign r err :: rest /\
      Verb r = "GET" /\ Path r = "/" +:+ name b /\
      Parameters r !! "marker" = None) /\
  (forall prevKey, prevKey <> "" -> validateKey prevKey = None ->
     exists r err rest,
       calls (snd (ListKeys xml_Decode b prevKey st)) = calls st ++ Signer_Sign r err :: rest /\
       Verb r = "GET" /\ Path r = "/" +:+ name b /\
       Parameters r = {[ "marker" := prevKey ]}) /\
  (forall prevKey e, prevKey <> "" -> validateKey prevKey = Some e ->
     ListKeys xml_Decode b prevKey st = (([], Some e), st)).
Proof.
  split; [|split].
  - destruct (ListKeys_accepted b "" st (or_introl eq_refl))
      as (r & err & rest & Hc & Hv & Hp & Hm).
    exists r, err, rest. simpl in Hm. rewrite Hm. auto.
  - intros prevKey Hne Hvalid.
    destruct (ListKeys_accepted b prevKey st (or_intror Hvalid))
      as (r & err & rest & Hc & Hv & Hp & Hm).
    exists r, err, rest. apply String.eqb_neq in Hne. rewrite Hne in Hm. auto.
  - intros prevKey e Hne Hinvalid. unfold ListKeys.
    apply String.eqb_neq in Hne. now rewrite Hinvalid, Hne.
Qed.

End ListRequest.

Lemma ListKeys_marker_witness :
  (exists r err rest,
      calls (snd (ListKeys xmltest.Decode (someBucket (respond 200 (stringReadCloser noKeysBody)))
                           "taco burrito" start))
        = Signer_Sign r err :: rest /\
      Parameters r = {[ "marker" := "taco burrito" ]}) /\
  ListKeys xmltest.Decode (someBucket (respond 200 (stringReadCloser noKeysBody)))
           nullByteKey start
    = (([], Some (errors_New "Key contains invalid codepoint: U+0000")), start).
Proof.
  destruct (ListKeys_marker xmltest.Decode
              (someBucket (respond 200 (stringReadCloser noKeysBody))) start)
    as (_ & Hvalid & Hinvalid).
  split.
  - destruct (Hvalid "taco burrito" ltac:(discriminate) eq_refl)
      as (r & err & rest & Hc & _ & _ & Hm).
    exists r, err, rest. split; [exact Hc | exact Hm].
  - apply Hinvalid; [discriminate | reflexivity].
Defined.

(* ------------------------------------------------------------------ *)
(** ** Listing: decoding the page *)
(* ------------------------------------------------------------------ *)

Lemma fillKeys_spec (contents : list bucketContents) (i : nat) (keys : list string) :
  length keys = (i + length contents)%nat ->
  fillKeys i contents keys = take i keys ++ map Key contents.
Proof.
  revert i keys. induction contents as [|elem rest IH]; intros i keys Hlen; simpl in *.
  - rewrite app_nil_r, take_ge; [reflexivity | lia].
  - rewrite IH by (rewrite length_insert; lia).
    rewrite (take_S_r _ _ (Key elem)) by (apply list_lookup_insert_eq; lia).
    rewrite take_insert_ge by lia. now rewrite <- app_assoc.
Qed.

Lemma fillKeys_map (contents : list bucketContents) :
  fillKeys 0 contents (replicate (length contents) "") = map Key contents.
Proof. rewrite fillKeys_spec; [reflexivity | now rewrite length_replicate]. Qed.

(** The [Key] field holds the character data of the last [Key] element. *)
Lemma unmarshal_bucketContents_last (children : list xml_Node) :
  Key (unmarshal_bucketContents children) = default "" (last (elementKeys children)).
Proof.
  unfold unmarshal_bucketContents.
  assert (forall v, Key (fold_left
            (fun v n => match n with
                        | xml_Element nm ch =>
                            if String.eqb (Local nm) "Key" then {| Key := charData ch |} else v
                        | xml_CharData _ => v
                        end) children v)
          = default (Key v) (last (elementKeys children))) as Hgen.
  { induction children as [|n rest IH]; intros v; [reflexivity|].
    simpl. rewrite IH. destruct n as [nm ch|d]; [|reflexivity].
    destruct (String.eqb (Local nm) "Key"); [|reflexivity].
    simpl. destruct (elementKeys rest) as [|k ks] eqn:Hk; [reflexivity|].
    change (charData ch :: k :: ks) with ([charData ch] ++ k :: ks).
    rewrite last_app. simpl. now destruct (last (k :: ks)). }
  apply Hgen.
Qed.

Lemma unmarshal_Contents (nm : xml_Name) (children : list xml_Node) :
  Contents (unmarshal_listBucketResult nm children) =
  flat_map (fun n => match n with
                     | xml_Element nm ch =>
                         if String.eqb (Local nm) "Contents"
                         then [unmarshal_bucketContents ch] else []
                     | xml_CharData _ => []
                     end) children.
Proof.
  unfold unmarshal_listBucketResult. simpl.
  assert (forall acc,
    fold_left (fun cs n => match n with
                           | xml_Element nm ch =>
                               if String.eqb (Local nm) "Contents"
                               then cs ++ [unmarshal_bucketContents ch] else cs
                           | xml_CharData _ => cs
                           end) children acc
    = acc ++ flat_map (fun n => match n with
                                | xml_Element nm ch =>
                                    if String.eqb (Local nm) "Contents"
                                    then [unmarshal_bucketContents ch] else []
                                | xml_CharData _ => []
                                end) children) as Hgen.
  { induction children as [|n rest IH]; intros acc; simpl; [now rewrite app_nil_r|].
    rewrite IH. destruct n as [nm' ch|d]; [|reflexivity].
    destruct (String.eqb (Local nm') "Contents"); [|reflexivity].
    now rewrite <- app_assoc. }
  apply Hgen.
Qed.

(** On a well-formed page the decoded keys are the keys of the document. *)
Lemma unmarshal_documentKeys (nm : xml_Name) (children : list xml_Node) :
  wellFormedPage children ->
  map Key (Contents (unmarshal_listBucketResult nm children)) = documentKeys children.
Proof.
  intros Hwf. rewrite unmarshal_Contents. unfold documentKeys.
  induction Hwf as [|n rest Hn _ IH]; [reflexivity|].
  simpl. rewrite map_app, IH. f_equal.
  destruct n as [nm' ch|d]; [|reflexivity].
  destruct (String.eqb_spec (Local nm') "Contents") as [Hc|_]; [|reflexivity].
  simpl. rewrite unmarshal_bucketContents_last.
  specialize (Hn Hc). destruct (elementKeys ch) as [|k [|k' ks]]; try discriminate.
  reflexivity.
Qed.

Section ListPage.
Context {W : Type}.
Variable xml_Decode : string -> (xml_Name * list xml_Node) + error.
Implicit Types (b : @bucket W) (st : @State W).

(** What [ListKeys] returns once the connection has answered. *)
Lemma ListKeys_response b (prevKey : string) st (l : list Call) (r : Request)
  (resp : Response) :
  calls (snd (ListKeys xml_Decode b prevKey st)) = calls st ++ l ->
  last l = Some (Conn_SendRequest r (inl resp)) ->
  fst (ListKeys xml_Decode b prevKey st) =
    if negb (StatusCode resp =? 200)%Z then ([], serverError resp)
    else
      match rc_failure (RespBody resp) with
      | Some e => ([], Some e)
      | None =>
          match xml_Decode (rc_data (RespBody resp)) with
          | inr e =>
              ([], Some (errors_New ("Invalid data from server (" +:+ Error e +:+ "): "
                                     +:+ rc_data (RespBody resp))))
          | inl (nm, children) =>
              if negb (String.eqb (Local nm) "ListBucketResult")
              then ([], Some (errors_New ("Invalid data from server: "
                                          +:+ rc_format (RespBody resp))))
              else (map Key (Contents (unmarshal_listBucketResult nm children)), None)
          end
      end.
Proof.
  unfold ListKeys.
  destruct (match validateKey prevKey with
            | Some err => if negb (String.eqb prevKey "") then Some err else None
            | None => None
            end) as [e|].
  { simpl. intros Hl Hlast. destruct (no_call_no_response _ _ _ Hl Hlast). }
  run_op. pose proof (clock_Now_calls b st) as Hclock.
  destruct (clock_Now b st) as [now st1]. simpl in Hclock.
  match goal with
  | |- context [signAndSend b ?req st1] =>
      pose proof (signAndSend_response b req st1 l r resp) as Hresp;
      destruct (signAndSend b req st1) as [res st2]
  end.
  simpl in Hresp. rewrite Hclock in Hresp.
  destruct res as [resp'|e]; simpl;
    [|intros Hl Hlast; discriminate (Hresp Hl Hlast)].
  unfold ReadBody, xml_Unmarshal.
  destruct (negb (StatusCode resp' =? 200)%Z) eqn:Hcode; simpl.
  { intros Hl Hlast. injection (Hresp Hl Hlast) as <-. now rewrite Hcode. }
  destruct (rc_failure (RespBody resp')) as [e|] eqn:Hread; simpl.
  { intros Hl Hlast. injection (Hresp Hl Hlast) as <-. now rewrite Hcode, Hread. }
  destruct (xml_Decode (rc_data (RespBody resp'))) as [[nm children]|e] eqn:Hdec; simpl.
  - destruct (negb (String.eqb (Local nm) "ListBucketResult")) eqn:Hroot; simpl;
      intros Hl Hlast; injection (Hresp Hl Hlast) as <-;
      rewrite Hcode, Hread, Hdec, Hroot; [reflexivity|].
    now rewrite fillKeys_map.
  - intros Hl Hlast. injection (Hresp Hl Hlast) as <-. now rewrite Hcode, Hread, Hdec.
Qed.

(** C8: when the connection answers [ListKeys] with status 200 and a body
    that can be read and decodes to a well-formed [ListBucketResult]
    document, [ListKeys] returns the keys under the [Contents] elements in
    document order and a nil error; a document without [Contents] gives the
    empty sequence. *)
Theorem ListKeys_keys b (prevKey : string) st (l : list Call) (r : Request)
  (resp : Response) (nm : xml_Name) (children : list xml_Node) :
  calls (snd (ListKeys xml_Decode b prevKey st)) = calls st ++ l ->
  last l = Some (Conn_SendRequest r (inl resp)) ->
  StatusCode resp = 200%Z ->
  rc_failure (RespBody resp) = None ->
  xml_Decode (rc_data (RespBody resp)) = inl (nm, children) ->
  Local nm = "ListBucketResult" ->
  wellFormedPage children ->
  fst (ListKeys xml_Decode b prevKey st) = (documentKeys children, None).
Proof.
  intros Hl Hlast Hcode Hread Hdec Hroot Hwf.
  rewrite (ListKeys_response b prevKey st l r resp Hl Hlast).
  rewrite Hcode, Hread, Hdec, Hroot, (unmarshal_documentKeys nm children Hwf).
  reflexivity.
Qed.

(** The two ways a page is refused.  A body that does not decode gives an
    error with the error of the decoder and the body in its message.  A
    document with another root element gives an error whose message ends
    with what [%s] prints for the body stream of the response. *)
Lemma ListKeys_malformed b (prevKey : string) st (l : list Call) (r : Request)
  (resp : Response) (e : error) :
  calls (snd (ListKeys xml_Decode b prevKey st)) = calls st ++ l ->
  last l = Some (Conn_SendRequest r (inl resp)) ->
  StatusCode resp = 200%Z ->
  rc_failure (RespBody resp) = None ->
  xml_Decode (rc_data (RespBody resp)) = inr e ->
  exists msg, fst (ListKeys xml_Decode b prevKey st) = ([], Some (errors_New msg)) /\
              HasSubstr (Error e) msg /\ HasSubstr (rc_data (RespBody resp)) msg.
Proof.
  intros Hl Hlast Hcode Hread Hdec.
  rewrite (ListKeys_response b prevKey st l r resp Hl Hlast).
  rewrite Hcode, Hread, Hdec. simpl. eexists. split; [reflexivity|]. split.
  - apply HasSubstr_middle.
  - exists ("Invalid data from server (" +:+ Error e +:+ "): "), "".
    now rewrite append_nil_r, !append_assoc.
Qed.

Lemma ListKeys_wrong_root b (prevKey : string) st (l : list Call) (r : Request)
  (resp : Response) (nm : xml_Name) (children : list xml_Node) :
  calls (snd (ListKeys xml_Decode b prevKey st)) = calls st ++ l ->
  last l = Some (Conn_SendRequest r (inl resp)) ->
  StatusCode resp = 200%Z ->
  rc_failure (RespBody resp) = None ->
  xml_Decode (rc_data (RespBody resp)) = inl (nm, children) ->
  Local nm <> "ListBucketResult" ->
  fst (ListKeys xml_Decode b prevKey st) =
    ([], Some (errors_New ("Invalid data from server: " +:+ rc_format (RespBody resp)))).
Proof.
  intros Hl Hlast Hcode Hread Hdec Hroot.
  rewrite (ListKeys_response b prevKey st l r resp Hl Hlast).
  rewrite Hcode, Hread, Hdec. simpl.
  apply String.eqb_neq in Hroot. now rewrite Hroot.
Qed.

End ListPage.

Lemma ListKeys_keys_witness :
  fst (ListKeys xmltest.Decode (someBucket (respond 200 (stringReadCloser someKeysBody)))
                "" start) = (["bar"; "baz"], None) /\
  fst (ListKeys xmltest.Decode (someBucket (respond 200 (stringReadCloser noKeysBody)))
                "" start) = ([], None).
Proof.
  split.
  - eapply eq_trans.
    + eapply (ListKeys_keys xmltest.Decode
                (someBucket (respond 200 (stringReadCloser someKeysBody))) "" start).
      * vm_compute. reflexivity.
      * reflexivity.
      * reflexivity.
      * reflexivity.
      * vm_compute. reflexivity.
      * reflexivity.
      * repeat constructor; simpl; intros; (reflexivity || discriminate).
    + reflexivity.
  - eapply eq_trans.
    + eapply (ListKeys_keys xmltest.Decode
                (someBucket (respond 200 (stringReadCloser noKeysBody))) "" start).
      * vm_compute. reflexivity.
      * reflexivity.
      * reflexivity.
      * reflexivity.
      * vm_compute. reflexivity.
      * reflexivity.
      * repeat constructor; simpl; intros; (reflexivity || discriminate).
    + reflexivity.
Defined.

(** C7, on a document whose root element is [FooBar] and that arrives in a
    response from the network: the decoder accepts the document, [ListKeys]
    refuses it, and the message of the error it returns holds neither the
    name [FooBar] nor the body, because the message is built from the stream
    value of the response and not from the bytes that were read from it. *)
Theorem ListKeys_wrong_root_message :
  (exists children,
      xmltest.Decode wrongRootBody = inl ({| Space := ""; Local := "FooBar" |}, children)) /\
  exists msg,
    fst (ListKeys xmltest.Decode (someBucket (respond 200 (networkBody wrongRootBody)))
                  "" start) = ([], Some (errors_New msg)) /\
    ~ HasSubstr "FooBar" msg /\ ~ HasSubstr wrongRootBody msg.
Proof.
  split; [eexists; vm_compute; reflexivity|].
  eexists. split; [vm_compute; reflexivity|].
  split; apply not_Contains; vm_compute; reflexivity.
Qed.

(* ------------------------------------------------------------------ *)
(** ** The query string *)
(* ------------------------------------------------------------------ *)

Lemma QueryEscape_space (s : string) :
  url.QueryEscape (String " "%char s) = String "+"%char (url.QueryEscape s).
Proof. reflexivity. Qed.

(** The parameters of the request do not depend on the order in which they
    were put into the map. *)
Lemma escapingRequest_Parameters :
  Parameters escapingRequest = <["b&az=" := "qu ?x"]> (<[taco_ko := "burrito"]> ∅).
Proof. vm_compute. reflexivity. Qed.

(** The name of the first parameter is the UTF-8 encoding of U+D0C0 U+CF54. *)
Lemma taco_ko_runes : utf8.runes taco_ko = [0xD0C0; 0xCF54]%Z.
Proof. reflexivity. Qed.

(** C4 as stated fails: the query string of the request is not the string of
    the claim, and the value with the space is escaped with [+]. *)
Lemma makeRawQuery_not_percent20 :
  makeRawQuery escapingRequest <> "%ED%83%80%EC%BD%94=burrito&b%26az%3D=qu%20%3Fx" /\
  url.QueryEscape "qu ?x" = "qu+%3Fx".
Proof. split; [vm_compute; discriminate | reflexivity]. Qed.

(** C4, as the code has it: the parameters are written in the byte order of
    their names, a space is escaped as [+], the reserved characters and the
    bytes of the UTF-8 encoding of a non-ASCII character are escaped as
    [%XX]. *)
Theorem makeRawQuery_escaping :
  makeRawQuery escapingRequest = "b%26az%3D=qu+%3Fx&%ED%83%80%EC%BD%94=burrito".
Proof. vm_compute. reflexivity. Qed.

(* ------------------------------------------------------------------ *)
(** ** The tests of the repository, on the embedding *)
(* ------------------------------------------------------------------ *)

Example test_KeyNotValidUtf8 :
  let err := messageOf (snd (fst (GetObject (someBucket notFound)
                                            (bytesOf [0x80; 0x81; 0x82]%Z) start))) in
  Contains err "valid" && Contains err "UTF-8" = true.
Proof. vm_compute. reflexivity. Qed.

Example test_KeyTooLong :
  let err := messageOf (snd (fst (GetObject (someBucket notFound)
                                            (string_of_chars (repeat "a"%char 1025)) start))) in
  Contains err "1024" && Contains err "bytes" = true.
Proof. vm_compute. reflexivity. Qed.

Example test_KeyContainsOutOfRangeCodepoint :
  let key := "taco" +:+ bytesOf [0xEF; 0xBF; 0xBE]%Z +:+ "burrito" in
  Contains (messageOf (snd (fst (GetObject (someBucket notFound) key start)))) "U+FFFE" = true.
Proof. vm_compute. reflexivity. Qed.

Example test_KeyIsEmpty :
  Contains (messageOf (fst (DeleteObject (someBucket notFound) "" start))) "empty" = true.
Proof. vm_compute. reflexivity. Qed.

Example test_StoreObject_CallsSigner :
  match signed (calls (snd (StoreObject refusingBucket "foo/bar/baz" deadbeef start))) with
  | [httpReq] =>
      Verb httpReq = "PUT" /\ Path httpReq = "/some.bucket/foo/bar/baz" /\
      Headers httpReq !! "Date" = Some "Mon, 18 Mar 1985 15:33:17 UTC" /\
      Headers httpReq !! "Content-MD5" = Some "5l1Y8tZ7UPPEFrOEo8ZK6A==" /\
      Body httpReq = bytes_NewBuffer deadbeef
  | _ => False
  end.
Proof. vm_compute. repeat split. Qed.

Example test_DeleteObject_CallsSigner :
  match signed (calls (snd (DeleteObject refusingBucket "taco burrito" start))) with
  | [httpReq] =>
      Verb httpReq = "DELETE" /\ Path httpReq = "/some.bucket/taco burrito" /\
      Headers httpReq !! "Content-MD5" = Some "1B2M2Y8AsgTpgAmY7PhCfg=="
  | _ => False
  end.
Proof. vm_compute. repeat split. Qed.

Example test_Put_CallsSigner :
  match signed (calls (snd (Put refusingBucket "foo/bar/baz" (bytes_NewReader deadbeef) start))) with
  | [httpReq] =>
      Verb httpReq = "PUT" /\
      Headers httpReq !! "Content-MD5" = Some "5l1Y8tZ7UPPEFrOEo8ZK6A==" /\
      match Body httpReq with
      | of_ReadSeeker data => fst (fst (io_Copy "" data)) = deadbeef
      | _ => False
      end
  | _ => False
  end.
Proof. vm_compute. repeat split. Qed.

Example test_SignerReturnsError :
  let err := messageOf (snd (fst (GetObject
               (openBucket "some.bucket" (answeringConn notFound)
                           (refusingSigner (errors_New "taco")) fakeClock) "a" start))) in
  Contains err "Sign" && Contains err "taco" = true.
Proof. vm_compute. reflexivity. Qed.

Example test_ListKeys_ServerReturnsError :
  let err := messageOf (snd (fst (ListKeys xmltest.Decode
               (someBucket (respond 500 (stringReadCloser "taco"))) "" start))) in
  Contains err "server" && Contains err "500" && Contains err "taco" = true.
Proof. vm_compute. reflexivity. Qed.

Example test_ListKeys_ResponseBodyIsJunk :
  let err := messageOf (snd (fst (ListKeys xmltest.Decode
               (someBucket (respond 200 (stringReadCloser "taco"))) "" start))) in
  Contains err "Invalid" && Contains err "taco" = true.
Proof. vm_compute. reflexivity. Qed.

(** With the stream of the tests the dump of the reader shows the document,
    and the test of the wrong root element passes. *)
Example test_ListKeys_WrongRootTag :
  let err := messageOf (snd (fst (ListKeys xmltest.Decode
               (someBucket (respond 200 (stringReadCloser wrongRootBody))) "" start))) in
  Contains err "Invalid" && Contains err "FooBar" = true.
Proof. vm_compute. reflexivity. Qed.

Example test_GetObject_ReturnsResponseBody :
  fst (GetObject (someBucket (respond 200 (stringReadCloser "taco"))) "a" start)
    = ("taco", None).
Proof. vm_compute. reflexivity. Qed.

(* ================================================================== *)
(** * Further properties of the code *)
(* ================================================================== *)

(* ------------------------------------------------------------------ *)
(** ** Key validation: what is accepted and what each error means *)
(* ------------------------------------------------------------------ *)

Section KeyRules.
Local Open Scope Z_scope.

Lemma checkRunes_xml10_first (rs : list Z) (e : error) :
  checkRunes_xml10 rs = Some e <->
  exists pre r post,
    rs = pre ++ r :: post /\ Forall xml10_Char pre /\ ~ xml10_Char r /\
    e = errors_New ("Key contains invalid codepoint: " +:+ fmt_U r).
Proof.
  induction rs as [|r0 rs IH]; simpl.
  - split; [discriminate|]. intros (pre & r & post & Heq & _). now destruct pre.
  - destruct (isXml10Char r0) eqn:Hr0; simpl.
    + apply isXml10Char_iff in Hr0. rewrite IH. split.
      * intros (pre & r & post & -> & Hpre & Hr & He).
        exists (r0 :: pre), r, post. repeat split; auto.
      * intros (pre & r & post & Heq & Hpre & Hr & He).
        destruct pre as [|p pre]; simpl in Heq; injection Heq as -> ->; [contradiction|].
        exists pre, r, post. inversion Hpre; subst. repeat split; auto.
    + assert (~ xml10_Char r0) as Hn by (rewrite <- isXml10Char_iff; congruence).
      split.
      * intros [= <-]. exists [], r0, rs. repeat split; auto.
      * intros (pre & r & post & Heq & Hpre & Hr & He).
        destruct pre as [|p pre]; simpl in Heq; injection Heq as -> ->.
        -- now subst e.
        -- inversion Hpre; subst. contradiction.
Qed.

(** X1: [validateKey] accepts a key exactly when the key is at most 1024
    bytes long, is valid UTF-8, is not empty, and every code point of it is
    in the character table of XML 1.0. *)
Theorem validateKey_accepts (key : string) :
  validateKey key = None <->
  (String.length key <= 1024)%nat /\ utf8.ValidString key = true /\ key <> "" /\
  Forall xml10_Char (utf8.runes key).
Proof.
  rewrite validateKey_xml10_eq. unfold validateKey_xml10.
  destruct (Nat.ltb_spec 1024 (String.length key)) as [Hlen|Hlen].
  { split; [discriminate | intros (H & _); lia]. }
  destruct (utf8.ValidString key) eqn:Hvalid; simpl.
  2:{ split; [discriminate | intros (_ & H & _); discriminate]. }
  destruct (String.eqb_spec key "") as [->|Hne].
  { split; [discriminate | intros (_ & _ & H & _); congruence]. }
  rewrite checkRunes_xml10_None. tauto.
Qed.

(** X2: the error of [validateKey] tells the rule that failed.  The rules
    are tried in the order length, UTF-8, emptiness, characters, and the
    last error names the first code point of the key that is not in the
    character table of XML 1.0. *)
Theorem validateKey_rejects (key : string) (e : error) :
  validateKey key = Some e <->
  ((1024 < String.length key)%nat /\
   e = errors_New "Keys may be no longer than 1024 bytes.") \/
  ((String.length key <= 1024)%nat /\ utf8.ValidString key = false /\
   e = errors_New "Keys must be valid UTF-8.") \/
  (key = "" /\ e = errors_New "Keys must be non-empty.") \/
  ((String.length key <= 1024)%nat /\ utf8.ValidString key = true /\
   exists pre r post,
     utf8.runes key = pre ++ r :: post /\ Forall xml10_Char pre /\ ~ xml10_Char r /\
     e = errors_New ("Key contains invalid codepoint: " +:+ fmt_U r)).
Proof.
  rewrite validateKey_xml10_eq. unfold validateKey_xml10.
  destruct (Nat.ltb_spec 1024 (String.length key)) as [Hlen|Hlen].
  { split.
    - intros [= <-]. left. auto.
    - intros [(_ & ->) | [(H & _) | [(-> & _) | (H & _)]]];
        [reflexivity | lia | simpl in Hlen; lia | lia]. }
  destruct (utf8.ValidString key) eqn:Hvalid; simpl.
  2:{ split.
      - intros [= <-]. right; left. auto.
      - intros [(H & _) | [(_ & _ & ->) | [(-> & _) | (_ & H & _)]]];
          [lia | reflexivity | discriminate Hvalid | discriminate]. }
  destruct (String.eqb_spec key "") as [->|Hne].
  { split.
    - intros [= <-]. right; right; left. auto.
    - intros [(H & _) | [(_ & H & _) | [(_ & ->) | (_ & _ & pre & r & post & H & _)]]];
        [simpl in H; lia | discriminate | reflexivity | now destruct pre]. }
  rewrite checkRunes_xml10_first. split.
  - intros H. right; right; right. auto.
  - intros [(H & _) | [(_ & H & _) | [(H & _) | (_ & _ & H)]]];
      [lia | discriminate | contradiction | exact H].
Qed.

(** A byte below 0x80 is never part of a longer sequence: the [range] loop
    visits it as a code point of its own. *)
Lemma ascii_byte_is_rune (s : string) (c : ascii) :
  In c (list_ascii_of_string s) -> byteZ c < 0x80 -> In (byteZ c) (utf8.runes s).
Proof.
  unfold utf8.runes.
  remember (String.length s) as n eqn:Hn. revert s Hn.
  induction n as [n IH] using lt_wf_ind. intros s -> Hin Hc.
  assert (Htail : forall t, (String.length t < String.length s)%nat ->
                            In c (list_ascii_of_string t) ->
                            In (byteZ c) (map fst (utf8.decode t)))
    by (intros t Ht Hint; now apply (IH _ Ht t)).
  clear IH.
  destruct s as [|c0 t1]; [destruct Hin|]. cbn [utf8.decode].
  simpl in Hin.
  pose proof (first_cases (byteZ c0)) as Hf.
  destruct (utf8.first (byteZ c0)) as [| |sz lo hi] eqn:Hfirst.
  - destruct Hin as [->|Hin]; [now left | right; apply Htail; [simpl; lia | exact Hin]].
  - destruct Hin as [->|Hin]; [|right; apply Htail; [simpl; lia | exact Hin]].
    exfalso. unfold utf8.first in Hfirst.
    destruct (Z.ltb_spec (byteZ c) 0x80); [discriminate | lia].
  - assert (Hlo : 0x80 <= lo) by (destruct Hf as [H|[H|[H|[H|[H|[H|[H|H]]]]]]]; lia).
    assert (Hc0 : c0 <> c).
    { intros ->. destruct Hf as [H|[H|[H|[H|[H|[H|[H|H]]]]]]]; lia. }
    destruct Hin as [Heq|Hin]; [contradiction|].
    assert (Hrest : In (byteZ c) (map fst (utf8.decode t1)))
      by (apply Htail; [simpl; lia | exact Hin]).
    destruct t1 as [|c1 t2]; [destruct Hin|].
    destruct (utf8.outside lo hi (byteZ c1)) eqn:Ho1; [now right|].
    apply outside_false in Ho1.
    assert (Hc1 : c1 <> c) by (intros ->; lia).
    destruct Hin as [Heq|Hin]; [contradiction|].
    destruct (sz <=? 2)%nat; [right; apply Htail; [simpl; lia | exact Hin]|].
    destruct t2 as [|c2 t3]; [destruct Hin|].
    destruct (utf8.outside utf8.locb utf8.hicb (byteZ c2)) eqn:Ho2; [now right|].
    apply outside_false in Ho2. unfold utf8.locb in Ho2.
    assert (Hc2 : c2 <> c) by (intros ->; lia).
    destruct Hin as [Heq|Hin]; [contradiction|].
    destruct (sz <=? 3)%nat; [right; apply Htail; [simpl; lia | exact Hin]|].
    destruct t3 as [|c3 t4]; [destruct Hin|].
    destruct (utf8.outside utf8.locb utf8.hicb (byteZ c3)) eqn:Ho3; [now right|].
    apply outside_false in Ho3. unfold utf8.locb in Ho3.
    assert (Hc3 : c3 <> c) by (intros ->; lia).
    destruct Hin as [Heq|Hin]; [contradiction|].
    right; apply Htail; [simpl; lia | exact Hin].
Qed.

(** X3: a key with a control byte in it (a byte below 0x20 other than tab,
    line feed and carriage return; the NUL byte for one) is never accepted,
    wherever the byte stands. *)
Theorem validateKey_control_byte (key : string) (c : ascii) :
  In c (list_ascii_of_string key) ->
  byteZ c < 0x20 -> byteZ c <> 0x09 -> byteZ c <> 0x0A -> byteZ c <> 0x0D ->
  validateKey key <> None.
Proof.
  intros Hin Hlt H9 HA HD Hacc. apply validateKey_accepts in Hacc.
  destruct Hacc as (_ & _ & _ & Hall).
  rewrite Forall_forall in Hall.
  specialize (Hall (byteZ c)). rewrite list_elem_of_In in Hall.
  specialize (Hall (ascii_byte_is_rune key c Hin ltac:(lia))).
  pose proof (byteZ_range c). unfold xml10_Char in Hall. lia.
Qed.

Lemma decode_ascii (s : string) :
  Forall (fun c => byteZ c < 0x80) (list_ascii_of_string s) ->
  utf8.decode s = map (fun c => (byteZ c, 1%nat)) (list_ascii_of_string s).
Proof.
  induction s as [|c s IH]; [reflexivity|]. simpl list_ascii_of_string.
  inversion 1 as [|? ? Hc Hs]; subst. cbn [utf8.decode].
  assert (utf8.first (byteZ c) = utf8.ASCII) as ->.
  { unfold utf8.first. destruct (Z.ltb_spec (byteZ c) 0x80); [reflexivity | lia]. }
  simpl. now rewrite IH.
Qed.

(** X4: every key of 1 to 1024 bytes that are all printable ASCII (0x20 to
    0x7E, so also the space and the slash) is accepted. *)
Theorem validateKey_printable_ascii (key : string) :
  key <> "" -> (String.length key <= 1024)%nat ->
  Forall (fun c => 0x20 <= byteZ c <= 0x7E) (list_ascii_of_string key) ->
  validateKey key = None.
Proof.
  intros Hne Hlen Hall. apply validateKey_accepts.
  assert (Hdec : utf8.decode key
                 = map (fun c => (byteZ c, 1%nat)) (list_ascii_of_string key)).
  { apply decode_ascii. eapply Forall_impl; [exact Hall|]. simpl. intros; lia. }
  repeat split; auto.
  - unfold utf8.ValidString. rewrite Hdec, forallb_forall.
    intros rw Hrw. apply in_map_iff in Hrw. destruct Hrw as (c & <- & Hc).
    rewrite Forall_forall in Hall. rewrite <- list_elem_of_In in Hc.
    specialize (Hall c Hc). unfold utf8.wellFormed, utf8.RuneError. simpl.
    destruct (Z.eqb_spec (byteZ c) 65533); [lia | reflexivity].
  - unfold utf8.runes. rewrite Hdec, map_map. simpl.
    apply Forall_map. eapply Forall_impl; [exact Hall|].
    simpl. intros c Hc. unfold xml10_Char. lia.
Qed.

End KeyRules.

Lemma validateKey_control_byte_witness : validateKey nullByteKey <> None.
Proof.
  apply (validateKey_control_byte nullByteKey (ascii_of_nat 0)).
  - simpl. tauto.
  - vm_compute. reflexivity.
  - discriminate.
  - discriminate.
  - discriminate.
Defined.

Lemma validateKey_printable_ascii_witness : validateKey "foo/bar baz" = None.
Proof.
  apply validateKey_printable_ascii.
  - discriminate.
  - simpl. lia.
  - repeat constructor; vm_compute; discriminate.
Defined.

(* ------------------------------------------------------------------ *)
(** ** The digest of a body that is held in memory *)
(* ------------------------------------------------------------------ *)

Lemma substring_nil (i n : nat) : String.substring i n "" = "".
Proof. destruct i, n; reflexivity. Qed.

Lemma substring_split (s : string) (i a c : nat) :
  String.substring i (a + c) s = String.substring i a s +:+ String.substring (i + a) c s.
Proof.
  revert i a. induction s as [|x s IH]; intros i a.
  - now rewrite !substring_nil.
  - destruct i as [|i]; simpl.
    + destruct a as [|a]; simpl; [reflexivity|].
      rewrite append_cons. f_equal. apply (IH 0%nat a).
    + apply IH.
Qed.

Lemma substring_all (s : string) : String.substring 0 (String.length s) s = s.
Proof. induction s as [|x s IH]; simpl; [reflexivity | now rewrite IH]. Qed.

Lemma substring_end (s : string) : String.substring (String.length s) 0 s = "".
Proof. induction s as [|x s IH]; simpl; [reflexivity | exact IH]. Qed.

(** [io.Copy] from a [bytes.Reader] delivers the bytes from the offset of the
    reader to the end and leaves the reader at the end. *)
Lemma copyLoop_reader (b : string) (n : nat) (i : Z) (dst : string) :
  (0 <= i <= Z.of_nat (String.length b))%Z ->
  (Z.to_nat (Z.of_nat (String.length b) - i) < n)%nat ->
  copyLoop n dst {| r_s := b; r_i := i; r_readFault := None |} =
    ((dst +:+ String.substring (Z.to_nat i) (Z.to_nat (Z.of_nat (String.length b) - i)) b,
      None),
     {| r_s := b; r_i := Z.of_nat (String.length b); r_readFault := None |}).
Proof.
  revert i dst. induction n as [|n IH]; intros i dst Hi Hn; [lia|].
  cbn [copyLoop]. change (@Read reader reader_ReadSeeker) with reader_Read.
  unfold reader_Read. cbn [r_s r_i r_readFault].
  destruct (Z.leb_spec (Z.of_nat (String.length b)) i) as [Hge|Hlt].
  - assert (i = Z.of_nat (String.length b)) as -> by lia.
    rewrite Z.sub_diag, Nat2Z.id. simpl Z.to_nat. now rewrite substring_end.
  - set (k := Z.min bufSize (Z.of_nat (String.length b) - i)).
    assert (Hk : (0 < k <= Z.of_nat (String.length b) - i)%Z) by (unfold k, bufSize; lia).
    rewrite IH by lia. f_equal. f_equal.
    rewrite append_assoc. f_equal. unfold slice.
    replace (Z.to_nat (Z.of_nat (String.length b) - i))
      with (Z.to_nat k + Z.to_nat (Z.of_nat (String.length b) - (i + k)))%nat by lia.
    rewrite substring_split. f_equal. f_equal. lia.
Qed.

(** For a body held in memory [encodeMD5] cannot fail: it returns the base64
    text of the MD5 digest of all the bytes, and the reader is back at
    offset 0, as if it had not been read. *)
Lemma encodeMD5_bytes_Reader (b : string) :
  encodeMD5 (bytes_NewReader b) =
    ((base64.EncodeToString (md5.Sum b), None), bytes_NewReader b).
Proof.
  assert (Hcopy : io_Copy md5_New (bytes_NewReader b)
                  = ((b, None), {| r_s := b; r_i := Z.of_nat (String.length b);
                                   r_readFault := None |})).
  { unfold io_Copy, bytes_NewReader.
    rewrite copyLoop_reader.
    - simpl Z.to_nat. rewrite Z.sub_0_r, Nat2Z.id, substring_all. reflexivity.
    - lia.
    - change (@pendingReads reader reader_ReadSeeker) with reader_pendingReads.
      unfold reader_pendingReads. simpl. lia. }
  apply (encodeMD5_copy_succeeds (bytes_NewReader b) (bytes_NewReader b)
           {| r_s := b; r_i := Z.of_nat (String.length b); r_readFault := None |}
           (bytes_NewReader b) 0%Z 0%Z b None).
  - reflexivity.
  - exact Hcopy.
  - reflexivity.
Qed.

Lemma addMd5Header_eq (r : Request) (body : string) :
  addMd5Header r body =
    ({| Verb := Verb r; Path := Path r;
        Headers := <["Content-MD5" := base64.EncodeToString (md5.Sum body)]> (Headers r);
        Parameters := Parameters r; Body := Body r |}, None).
Proof. unfold addMd5Header. now rewrite encodeMD5_bytes_Reader. Qed.

(** X5: [addMd5Header] never fails; the request it leaves has the base64
    text of the MD5 digest of the whole body as its [Content-MD5] header, and
    is otherwise the request it was given: the other headers, the verb, the
    path, the parameters and the body are the same. *)
Theorem addMd5Header_digest (r : Request) (body : string) :
  snd (addMd5Header r body) = None /\
  Headers (fst (addMd5Header r body)) !! "Content-MD5"
    = Some (base64.EncodeToString (md5.Sum body)) /\
  (forall h, h <> "Content-MD5" ->
             Headers (fst (addMd5Header r body)) !! h = Headers r !! h) /\
  Verb (fst (addMd5Header r body)) = Verb r /\
  Path (fst (addMd5Header r body)) = Path r /\
  Parameters (fst (addMd5Header r body)) = Parameters r /\
  Body (fst (addMd5Header r body)) = Body r.
Proof.
  rewrite addMd5Header_eq. simpl. repeat split.
  - apply lookup_insert_eq.
  - intros h Hh. now apply lookup_insert_ne.
Qed.

(* ------------------------------------------------------------------ *)
(** ** The exchange with the signer and the connection *)
(* ------------------------------------------------------------------ *)

Section Exchange.
Context {W : Type}.
Variable xml_Decode : string -> (xml_Name * list xml_Node) + error.
Implicit Types (b : @bucket W) (st : @State W) (op : operation).

(** [signAndSend], call by call. *)
Lemma signAndSend_trace b (req : Request) st :
  signAndSend b req st =
    let '((req', err), w1) := Sign (signer b) req (world st) in
    match err with
    | Some e =>
        (inr (fmt_Errorf ("Sign: " +:+ Error e)),
         {| world := w1; calls := calls st ++ [Signer_Sign req (Some e)] |})
    | None =>
        let '(res, w2) := SendRequest (httpConn b) req' w1 in
        (match res with
         | inl resp => inl resp
         | inr e => inr (fmt_Errorf ("SendRequest: " +:+ Error e))
         end,
         {| world := w2;
            calls := calls st ++ [Signer_Sign req None; Conn_SendRequest req' res] |})
    end.
Proof.
  unfold signAndSend, signer_Sign, httpConn_SendRequest. run_op.
  destruct (Sign (signer b) req (world st)) as [[req' [e|]] w1]; simpl; [reflexivity|].
  destruct (SendRequest (httpConn b) req' w1) as [res w2]; simpl.
  rewrite <- app_assoc. now destruct res.
Qed.

Lemma signAndSend_oneExchange b (req : Request) st :
  exists l, calls (snd (signAndSend b req st)) = calls st ++ l /\ oneExchange b l.
Proof.
  rewrite signAndSend_trace.
  destruct (Sign (signer b) req (world st)) as [[req' [e|]] w1] eqn:Hsign.
  - eexists. split; [reflexivity|]. right; left.
    exists req, e, (world st). now rewrite Hsign.
  - destruct (SendRequest (httpConn b) req' w1) as [res w2] eqn:Hsend.
    eexists. split; [reflexivity|]. right; right.
    exists req, req', res, (world st), w1, w2. auto.
Qed.

(** What an operation does with the result of the exchange.  Either it
    returns an error without a call (the key was refused, or the body could
    not be prepared), or it builds a request and its error result is
    determined by what [signAndSend] returns for it. *)
Lemma errorOf_cases b op st :
  (exists e, errorOf xml_Decode b op st = (Some e, st)) \/
  (exists req st1,
      calls st1 = calls st /\
      snd (errorOf xml_Decode b op st) = snd (signAndSend b req st1) /\
      (forall e, fst (signAndSend b req st1) = inr e ->
                 fst (errorOf xml_Decode b op st) = Some e) /\
      (forall resp, fst (signAndSend b req st1) = inl resp ->
                    StatusCode resp <> successStatus op ->
                    fst (errorOf xml_Decode b op st) = serverError resp) /\
      (forall resp, fst (signAndSend b req st1) = inl resp ->
                    StatusCode resp = successStatus op ->
                    match op with
                    | opGetObject _ =>
                        fst (errorOf xml_Decode b op st) = rc_failure (RespBody resp)
                    | opListKeys _ => True
                    | _ => fst (errorOf xml_Decode b op st) = None
                    end)).
Proof.
  destruct op as [key|key|key data|key|R HR key data|prevKey]; unfold errorOf.
  - unfold GetObject. destruct (validateKey key) as [e|]; [left; now exists e|].
    right. run_op. pose proof (clock_Now_calls b st) as Hclock.
    destruct (clock_Now b st) as [now st1]. simpl in Hclock.
    match goal with |- context [signAndSend b ?req st1] => exists req, st1 end.
    split; [exact Hclock|].
    destruct (signAndSend b _ st1) as [[resp|e] st2]; simpl.
    + destruct (Z.eqb_spec (StatusCode resp) 200) as [Hc|Hc]; simpl;
        repeat split; try discriminate; intros ? [= <-]; congruence.
    + repeat split; try discriminate. now intros ? [= <-].
  - unfold GetHeader. destruct (validateKey key) as [e|]; [left; now exists e|].
    right. run_op. pose proof (clock_Now_calls b st) as Hclock.
    destruct (clock_Now b st) as [now st1]. simpl in Hclock.
    match goal with |- context [signAndSend b ?req st1] => exists req, st1 end.
    split; [exact Hclock|].
    destruct (signAndSend b _ st1) as [[resp|e] st2]; simpl.
    + destruct (Z.eqb_spec (StatusCode resp) 200) as [Hc|Hc]; simpl;
        repeat split; try discriminate; intros ? [= <-]; congruence.
    + repeat split; try discriminate. now intros ? [= <-].
  - unfold StoreObject. destruct (validateKey key) as [e|]; [left; now exists e|].
    right. run_op. pose proof (clock_Now_calls b st) as Hclock.
    destruct (clock_Now b st) as [now st1]. simpl in Hclock.
    rewrite addMd5Header_eq.
    match goal with |- context [signAndSend b ?req st1] => exists req, st1 end.
    split; [exact Hclock|].
    destruct (signAndSend b _ st1) as [[resp|e] st2]; simpl.
    + destruct (Z.eqb_spec (StatusCode resp) 200) as [Hc|Hc]; simpl;
        repeat split; try discriminate; intros ? [= <-]; congruence.
    + repeat split; try discriminate. now intros ? [= <-].
  - unfold DeleteObject. destruct (validateKey key) as [e|]; [left; now exists e|].
    right. run_op. pose proof (clock_Now_calls b st) as Hclock.
    destruct (clock_Now b st) as [now st1]. simpl in Hclock.
    rewrite addMd5Header_eq.
    match goal with |- context [signAndSend b ?req st1] => exists req, st1 end.
    split; [exact Hclock|].
    destruct (signAndSend b _ st1) as [[resp|e] st2]; simpl.
    + destruct (Z.eqb_spec (StatusCode resp) 204) as [Hc|Hc]; simpl;
        repeat split; try discriminate; intros ? [= <-]; congruence.
    + repeat split; try discriminate. now intros ? [= <-].
  - unfold Put. destruct (validateKey key) as [e|]; [left; now exists e|].
    destruct (encodeMD5 data) as [[contentMD5 [e|]] data']; [left; now exists e|].
    right. run_op. pose proof (clock_Now_calls b st) as Hclock.
    destruct (clock_Now b st) as [now st1]. simpl in Hclock.
    match goal with |- context [signAndSend b ?req st1] => exists req, st1 end.
    split; [exact Hclock|].
    destruct (signAndSend b _ st1) as [[resp|e] st2]; simpl.
    + destruct (Z.eqb_spec (StatusCode resp) 200) as [Hc|Hc]; simpl;
        repeat split; try discriminate; intros ? [= <-]; congruence.
    + repeat split; try discriminate. now intros ? [= <-].
  - unfold ListKeys.
    destruct (match validateKey prevKey with
              | Some err => if negb (String.eqb prevKey "") then Some err else None
              | None => None
              end) as [e|]; [left; now exists e|].
    right. run_op. pose proof (clock_Now_calls b st) as Hclock.
    destruct (clock_Now b st) as [now st1]. simpl in Hclock.
    match goal with |- context [signAndSend b ?req st1] => exists req, st1 end.
    split; [exact Hclock|].
    destruct (signAndSend b _ st1) as [[resp|e] st2]; simpl.
    + unfold ReadBody, xml_Unmarshal.
      destruct (Z.eqb_spec (StatusCode resp) 200) as [Hc|Hc]; simpl.
      * destruct (rc_failure (RespBody resp)); simpl;
          [repeat split; try discriminate; intros ? [= <-]; congruence|].
        destruct (xml_Decode (rc_data (RespBody resp))) as [[nm children]|e]; simpl;
          [|repeat split; try discriminate; intros ? [= <-]; congruence].
        destruct (negb _); simpl;
          repeat split; try discriminate; intros ? [= <-]; congruence.
      * repeat split; try discriminate; intros ? [= <-]; congruence.
    + repeat split; try discriminate. now intros ? [= <-].
Qed.

End Exchange.

Section ExchangeProperties.
Context {W : Type}.
Variable xml_Decode : string -> (xml_Name * list xml_Node) + error.
Implicit Types (b : @bucket W) (st : @State W) (op : operation).

(** What the calls in the log of [signAndSend] say about its result. *)
Lemma signAndSend_log b (req : Request) st (l : list Call) :
  calls (snd (signAndSend b req st)) = calls st ++ l ->
  (forall r e, In (Signer_Sign r (Some e)) l ->
     l = [Signer_Sign r (Some e)] /\
     fst (signAndSend b req st) = inr (errors_New ("Sign: " +:+ Error e))) /\
  (forall r e, In (Conn_SendRequest r (inr e)) l ->
     fst (signAndSend b req st) = inr (errors_New ("SendRequest: " +:+ Error e))) /\
  (forall r resp, In (Conn_SendRequest r (inl resp)) l ->
     fst (signAndSend b req st) = inl resp).
Proof.
  rewrite signAndSend_trace.
  destruct (Sign (signer b) req (world st)) as [[req' [e0|]] w1].
  - simpl. intros Hl. apply app_inv_head in Hl. subst l. repeat split.
    + destruct H as [[= <- <-]|[]]. reflexivity.
    + destruct H as [[= <- <-]|[]]. reflexivity.
    + intros r e [H|[]]. discriminate H.
    + intros r resp [H|[]]. discriminate H.
  - destruct (SendRequest (httpConn b) req' w1) as [res w2]. simpl.
    intros Hl. apply app_inv_head in Hl. subst l. repeat split.
    + destruct H as [H|[H|[]]]; discriminate H.
    + destruct H as [H|[H|[]]]; discriminate H.
    + intros r e [H|[H|[]]]; [discriminate H|]. now injection H as _ ->.
    + intros r resp [H|[H|[]]]; [discriminate H|]. now injection H as _ ->.
Qed.

(** X6: whatever its arguments and whatever the collaborators do, an
    operation calls the signer at most once and the connection at most once,
    the connection only after the signer has accepted, and with the request
    as the signer left it. *)
Theorem operation_oneExchange b op st :
  exists l, calls (snd (errorOf xml_Decode b op st)) = calls st ++ l /\ oneExchange b l.
Proof.
  destruct (errorOf_cases xml_Decode b op st)
    as [(e & ->) | (req & st1 & Hcalls & Hst & _)].
  - exists []. simpl. rewrite app_nil_r. split; [reflexivity | now left].
  - rewrite Hst. destruct (signAndSend_oneExchange b req st1) as (l & Hl & Hone).
    exists l. now rewrite Hl, Hcalls.
Qed.

(** The part of the three theorems below that is the same. *)
Lemma errorOf_log b op st (l : list Call) (c : Call) :
  calls (snd (errorOf xml_Decode b op st)) = calls st ++ l -> In c l ->
  exists req st1,
    calls (snd (signAndSend b req st1)) = calls st1 ++ l /\
    (forall e, fst (signAndSend b req st1) = inr e ->
               fst (errorOf xml_Decode b op st) = Some e) /\
    (forall resp, fst (signAndSend b req st1) = inl resp ->
                  StatusCode resp <> successStatus op ->
                  fst (errorOf xml_Decode b op st) = serverError resp) /\
    (forall resp, fst (signAndSend b req st1) = inl resp ->
                  StatusCode resp = successStatus op ->
                  match op with
                  | opGetObject _ =>
                      fst (errorOf xml_Decode b op st) = rc_failure (RespBody resp)
                  | opListKeys _ => True
                  | _ => fst (errorOf xml_Decode b op st) = None
                  end).
Proof.
  intros Hl Hin.
  destruct (errorOf_cases xml_Decode b op st)
    as [(e & He) | (req & st1 & Hcalls & Hst & Herr & Hbad & Hgood)].
  - rewrite He in Hl. simpl in Hl. rewrite <- (app_nil_r (calls st)) in Hl at 1.
    apply app_inv_head in Hl. subst l. destruct Hin.
  - exists req, st1. rewrite <- Hst, Hcalls. auto.
Qed.

(** X7: when the signer refuses the request, the operation returns the
    error of the signer behind the prefix [Sign: ], and the connection is not
    called. *)
Theorem operation_signer_refuses b op st (l : list Call) (r : Request) (e : error) :
  calls (snd (errorOf xml_Decode b op st)) = calls st ++ l ->
  In (Signer_Sign r (Some e)) l ->
  l = [Signer_Sign r (Some e)] /\
  fst (errorOf xml_Decode b op st) = Some (errors_New ("Sign: " +:+ Error e)).
Proof.
  intros Hl Hin.
  destruct (errorOf_log b op st l _ Hl Hin) as (req & st1 & Hlog & Herr & _).
  destruct (signAndSend_log b req st1 l Hlog) as (Hsign & _).
  destruct (Hsign r e Hin) as [-> Hres]. split; [reflexivity|]. now apply Herr.
Qed.

(** X8: when the connection fails, the operation returns the error of the
    connection behind the prefix [SendRequest: ]. *)
Theorem operation_connection_fails b op st (l : list Call) (r : Request) (e : error) :
  calls (snd (errorOf xml_Decode b op st)) = calls st ++ l ->
  In (Conn_SendRequest r (inr e)) l ->
  fst (errorOf xml_Decode b op st) = Some (errors_New ("SendRequest: " +:+ Error e)).
Proof.
  intros Hl Hin.
  destruct (errorOf_log b op st l _ Hl Hin) as (req & st1 & Hlog & Herr & _).
  destruct (signAndSend_log b req st1 l Hlog) as (_ & Hsend & _).
  apply Herr. now apply (Hsend r e).
Qed.

(** X9: when the connection answers with a status that is not the one the
    operation waits for (204 for [DeleteObject], 200 for the others), the
    operation returns the error of [serverError]; so a 204 is an error for
    [StoreObject] and a 200 is one for [DeleteObject].  When the status is
    the one it waits for, [GetHeader], [StoreObject], [DeleteObject] and
    [Put] return a nil error and [GetObject] returns the error of reading
    the body. *)
Theorem operation_status b op st (l : list Call) (r : Request) (resp : Response) :
  calls (snd (errorOf xml_Decode b op st)) = calls st ++ l ->
  In (Conn_SendRequest r (inl resp)) l ->
  (StatusCode resp <> successStatus op ->
   fst (errorOf xml_Decode b op st) = serverError resp) /\
  (StatusCode resp = successStatus op ->
   match op with
   | opGetObject _ => fst (errorOf xml_Decode b op st) = snd (ReadBody resp)
   | opListKeys _ => True
   | _ => fst (errorOf xml_Decode b op st) = None
   end).
Proof.
  intros Hl Hin.
  destruct (errorOf_log b op st l _ Hl Hin) as (req & st1 & Hlog & _ & Hbad & Hgood).
  destruct (signAndSend_log b req st1 l Hlog) as (_ & _ & Hresp).
  specialize (Hresp r resp Hin). split; intros Hcode; [now apply Hbad | now apply Hgood].
Qed.

End ExchangeProperties.

Lemma operation_signer_refuses_witness :
  fst (errorOf xmltest.Decode refusingBucket (opStoreObject "a" deadbeef) start)
    = Some (errors_New "Sign: ").
Proof.
  destruct (operation_signer_refuses xmltest.Decode refusingBucket
              (opStoreObject "a" deadbeef) start
              (calls (snd (errorOf xmltest.Decode refusingBucket
                                    (opStoreObject "a" deadbeef) start)))
              {| Verb := "PUT"; Path := "/some.bucket/a";
                 Headers := <["Content-MD5" := "5l1Y8tZ7UPPEFrOEo8ZK6A=="]>
                              (dateHeader {| UTC_RFC1123 := "Mon, 18 Mar 1985 15:33:17 UTC" |});
                 Parameters := ∅; Body := bytes_NewBuffer deadbeef |}
              (errors_New "")) as [_ Herr].
  - reflexivity.
  - vm_compute. left. reflexivity.
  - exact Herr.
Defined.

Lemma operation_connection_fails_witness :
  fst (errorOf xmltest.Decode
         (openBucket "some.bucket" (failingConn noSuchHost) acceptingSigner fakeClock)
         (opListKeys "") start)
    = Some (errors_New "SendRequest: dial tcp: lookup s3.example.com: no such host").
Proof.
  apply (operation_connection_fails xmltest.Decode
           (openBucket "some.bucket" (failingConn noSuchHost) acceptingSigner fakeClock)
           (opListKeys "") start
           (calls (snd (errorOf xmltest.Decode
                          (openBucket "some.bucket" (failingConn noSuchHost)
                                      acceptingSigner fakeClock)
                          (opListKeys "") start)))
           {| Verb := "GET"; Path := "/some.bucket";
              Headers := dateHeader {| UTC_RFC1123 := "Mon, 18 Mar 1985 15:33:17 UTC" |};
              Parameters := ∅; Body := nil_Reader |}
           noSuchHost).
  - reflexivity.
  - vm_compute. right. left. reflexivity.
Defined.

Lemma operation_status_witness :
  fst (errorOf xmltest.Decode (someBucket (respond 204 (stringReadCloser "")))
               (opStoreObject "a" deadbeef) start)
    = Some (errors_New "Error from server: 204 ") /\
  fst (errorOf xmltest.Decode (someBucket (respond 204 (stringReadCloser "")))
               (opDeleteObject "a") start) = None.
Proof.
  split.
  - edestruct (operation_status xmltest.Decode (someBucket (respond 204 (stringReadCloser "")))
                 (opStoreObject "a" deadbeef) start) as [Hbad _].
    + reflexivity.
    + vm_compute. right. left. reflexivity.
    + rewrite Hbad; [reflexivity | simpl; lia].
  - edestruct (operation_status xmltest.Decode (someBucket (respond 204 (stringReadCloser "")))
                 (opDeleteObject "a") start) as [_ Hgood].
    + reflexivity.
    + vm_compute. right. left. reflexivity.
    + apply Hgood. reflexivity.
Defined.

(* ------------------------------------------------------------------ *)
(** ** The request each operation builds *)
(* ------------------------------------------------------------------ *)

Ltac peel_result :=
  repeat (try reflexivity;
          match goal with
          | |- context [match ?x with _ => _ end] => destruct x; simpl
          end).

Section Requests.
Context {W : Type}.
Implicit Types (b : @bucket W) (st : @State W).

Lemma signed_first b (req : Request) st st1 st' :
  calls st1 = calls st -> st' = snd (signAndSend b req st1) ->
  exists err rest, calls st' = calls st ++ Signer_Sign req err :: rest.
Proof.
  intros Hcalls ->. destruct (signAndSend_first b req st1) as (err & rest & H).
  exists err, rest. now rewrite H, Hcalls.
Qed.

(** X10: for a key that passes validation, [GetObject] and [GetHeader] hand
    the signer a request with the verb GET or HEAD, the path
    [/bucket/key] with the key as it is, the time of the clock as the only
    header, no parameter and no body. *)
Theorem Get_request b (key : string) st :
  validateKey key = None ->
  (exists err rest,
      calls (snd (GetObject b key st)) =
        calls st ++ Signer_Sign (objectRequest b "GET" key
                                   (dateHeader (fst (clock_Now b st))) nil_Reader) err
                    :: rest) /\
  (exists err rest,
      calls (snd (GetHeader b key st)) =
        calls st ++ Signer_Sign (objectRequest b "HEAD" key
                                   (dateHeader (fst (clock_Now b st))) nil_Reader) err
                    :: rest).
Proof.
  intros Hvalid. pose proof (clock_Now_calls b st) as Hclock.
  unfold GetObject, GetHeader. rewrite Hvalid. run_op.
  destruct (clock_Now b st) as [now st1]. simpl in *.
  split; eapply (signed_first b _ st st1 _ Hclock);
    destruct (signAndSend b _ st1) as [[resp|e] st2]; simpl; peel_result.
Qed.

(** X11: for a key that passes validation, [StoreObject] hands the signer a
    PUT request for [/bucket/key] whose headers are the time of the clock
    and, as [Content-MD5], the base64 text of the MD5 digest of the data, and
    whose body is a buffer with the data. *)
Theorem StoreObject_request b (key data : string) st :
  validateKey key = None ->
  exists err rest,
    calls (snd (StoreObject b key data st)) =
      calls st ++
      Signer_Sign (objectRequest b "PUT" key
                     (<["Content-MD5" := base64.EncodeToString (md5.Sum data)]>
                        (dateHeader (fst (clock_Now b st))))
                     (bytes_NewBuffer data)) err
      :: rest.
Proof.
  intros Hvalid. pose proof (clock_Now_calls b st) as Hclock.
  unfold StoreObject. rewrite Hvalid. run_op.
  destruct (clock_Now b st) as [now st1]. cbn [fst snd] in *.
  rewrite addMd5Header_eq.
  eapply (signed_first b _ st st1 _ Hclock).
  destruct (signAndSend b _ st1) as [[resp|e] st2]; simpl; peel_result.
Qed.

(** X12: for a key that passes validation, [DeleteObject] hands the signer a
    DELETE request for [/bucket/key] without a body, whose [Content-MD5]
    header is the digest of the empty body, [1B2M2Y8AsgTpgAmY7PhCfg==]. *)
Theorem DeleteObject_request b (key : string) st :
  validateKey key = None ->
  exists err rest,
    calls (snd (DeleteObject b key st)) =
      calls st ++
      Signer_Sign (objectRequest b "DELETE" key
                     (<["Content-MD5" := "1B2M2Y8AsgTpgAmY7PhCfg=="]>
                        (dateHeader (fst (clock_Now b st))))
                     nil_Reader) err
      :: rest.
Proof.
  intros Hvalid. pose proof (clock_Now_calls b st) as Hclock.
  unfold DeleteObject. rewrite Hvalid. run_op.
  destruct (clock_Now b st) as [now st1]. cbn [fst snd] in *.
  rewrite addMd5Header_eq.
  change (base64.EncodeToString (md5.Sum "")) with "1B2M2Y8AsgTpgAmY7PhCfg==".
  eapply (signed_first b _ st st1 _ Hclock).
  destruct (signAndSend b _ st1) as [[resp|e] st2]; simpl; peel_result.
Qed.

(** X13: for a key that passes validation and a stream for which
    [encodeMD5] returns a digest, [Put] hands the signer a PUT request for
    [/bucket/key] whose headers are the time of the clock and that digest,
    and whose body is the stream as [encodeMD5] left it.  For a body held in
    memory the digest is the one of all its bytes and the stream is at its
    start again. *)
Theorem Put_request {R : Type} `{ReadSeeker R} b (key : string) (data data' : R)
  (contentMD5 : string) st :
  validateKey key = None ->
  encodeMD5 data = ((contentMD5, None), data') ->
  exists err rest,
    calls (snd (Put b key data st)) =
      calls st ++
      Signer_Sign (objectRequest b "PUT" key
                     (<["Content-MD5" := contentMD5]> (dateHeader (fst (clock_Now b st))))
                     (of_ReadSeeker data')) err
      :: rest.
Proof.
  intros Hvalid Hmd5. pose proof (clock_Now_calls b st) as Hclock.
  unfold Put. rewrite Hvalid, Hmd5. run_op.
  destruct (clock_Now b st) as [now st1]. simpl in *.
  eapply (signed_first b _ st st1 _ Hclock).
  destruct (signAndSend b _ st1) as [[resp|e] st2]; simpl; peel_result.
Qed.

(** X14: when the stream cannot be brought to its start, [Put] returns the
    error of [Seek] and does nothing else: the clock is not read and neither
    the signer nor the connection is called. *)
Theorem Put_unseekable {R : Type} `{ReadSeeker R} b (key : string) (data data' : R)
  (n : Z) (e : error) st :
  validateKey key = None ->
  Seek data 0 0 = ((n, Some e), data') ->
  Put b key data st = (Some e, st).
Proof.
  intros Hvalid Hseek. unfold Put.
  now rewrite Hvalid, (encodeMD5_first_seek_fails _ _ _ _ Hseek).
Qed.

(** X15: once the connection has answered [GetObject], a status 200 makes
    it return what reading the body of the response returns, data and error,
    and any other status makes it return no data and the error of
    [serverError]. *)
Theorem GetObject_returns_body b (key : string) st (l : list Call) (r : Request)
  (resp : Response) :
  calls (snd (GetObject b key st)) = calls st ++ l ->
  last l = Some (Conn_SendRequest r (inl resp)) ->
  fst (GetObject b key st) =
    if (StatusCode resp =? 200)%Z
    then ReadBody resp
    else ("", serverError resp).
Proof.
  unfold GetObject. destruct (validateKey key) as [e|].
  { simpl. intros Hl Hlast. destruct (no_call_no_response _ _ _ Hl Hlast). }
  run_op. pose proof (clock_Now_calls b st) as Hclock.
  destruct (clock_Now b st) as [now st1]. simpl in Hclock.
  match goal with
  | |- context [signAndSend b ?req st1] =>
      pose proof (signAndSend_response b req st1 l r resp) as Hresp;
      destruct (signAndSend b req st1) as [res st2]
  end.
  simpl in Hresp. rewrite Hclock in Hresp.
  destruct res as [resp'|e]; simpl;
    [|intros Hl Hlast; discriminate (Hresp Hl Hlast)].
  destruct (Z.eqb_spec (StatusCode resp') 200) as [Hcode|Hcode]; simpl;
    intros Hl Hlast; injection (Hresp Hl Hlast) as <-.
  - rewrite Hcode. reflexivity.
  - apply Z.eqb_neq in Hcode. now rewrite Hcode.
Qed.

End Requests.

Lemma Get_request_witness :
  exists err rest,
    calls (snd (GetHeader refusingBucket "foo/bar/baz" start)) =
      Signer_Sign {| Verb := "HEAD"; Path := "/some.bucket/foo/bar/baz";
                     Headers := {[ "Date" := "Mon, 18 Mar 1985 15:33:17 UTC" ]};
                     Parameters := ∅; Body := nil_Reader |} err :: rest.
Proof.
  destruct (Get_request refusingBucket "foo/bar/baz" start eq_refl) as [_ Hhead].
  exact Hhead.
Defined.

Lemma StoreObject_request_witness :
  exists err rest,
    calls (snd (StoreObject refusingBucket "foo/bar/baz" deadbeef start)) =
      Signer_Sign {| Verb := "PUT"; Path := "/some.bucket/foo/bar/baz";
                     Headers := <["Content-MD5" := base64.EncodeToString (md5.Sum deadbeef)]>
                                  {[ "Date" := "Mon, 18 Mar 1985 15:33:17 UTC" ]};
                     Parameters := ∅; Body := bytes_NewBuffer deadbeef |} err :: rest.
Proof. exact (StoreObject_request refusingBucket "foo/bar/baz" deadbeef start eq_refl). Defined.

Lemma DeleteObject_request_witness :
  exists err rest,
    calls (snd (DeleteObject refusingBucket "taco burrito" start)) =
      Signer_Sign {| Verb := "DELETE"; Path := "/some.bucket/taco burrito";
                     Headers := <["Content-MD5" := "1B2M2Y8AsgTpgAmY7PhCfg=="]>
                                  {[ "Date" := "Mon, 18 Mar 1985 15:33:17 UTC" ]};
                     Parameters := ∅; Body := nil_Reader |} err :: rest.
Proof. exact (DeleteObject_request refusingBucket "taco burrito" start eq_refl). Defined.

Lemma Put_request_witness :
  exists err rest,
    calls (snd (Put refusingBucket "foo/bar/baz" (bytes_NewReader deadbeef) start)) =
      Signer_Sign {| Verb := "PUT"; Path := "/some.bucket/foo/bar/baz";
                     Headers := <["Content-MD5" := base64.EncodeToString (md5.Sum deadbeef)]>
                                  {[ "Date" := "Mon, 18 Mar 1985 15:33:17 UTC" ]};
                     Parameters := ∅;
                     Body := of_ReadSeeker (bytes_NewReader deadbeef) |} err :: rest.
Proof.
  exact (Put_request refusingBucket "foo/bar/baz" (bytes_NewReader deadbeef)
           (bytes_NewReader deadbeef) _ start eq_refl (encodeMD5_bytes_Reader deadbeef)).
Defined.

Lemma Put_unseekable_witness :
  Put (someBucket (respond 200 (stringReadCloser ""))) "a" {| pipe_data := "taco" |} start
    = (Some (errors_New "seek |0: illegal seek"), start).
Proof.
  exact (Put_unseekable (someBucket (respond 200 (stringReadCloser ""))) "a"
           {| pipe_data := "taco" |} {| pipe_data := "taco" |} 0%Z
           (errors_New "seek |0: illegal seek") start eq_refl eq_refl).
Defined.

Lemma GetObject_returns_body_witness :
  fst (GetObject (someBucket (respond 200 (stringReadCloser "taco"))) "a" start)
    = ("taco", None) /\
  fst (GetObject (someBucket notFound) "a" start)
    = ("", Some (errors_New "Error from server: 404 NoSuchKey")).
Proof.
  split.
  - eapply eq_trans;
      [eapply (GetObject_returns_body (someBucket (respond 200 (stringReadCloser "taco")))
                 "a" start); [vm_compute; reflexivity | reflexivity]
      | reflexivity].
  - eapply eq_trans;
      [eapply (GetObject_returns_body (someBucket notFound) "a" start);
         [vm_compute; reflexivity | reflexivity]
      | reflexivity].
Defined.

(* ------------------------------------------------------------------ *)
(** ** Listing: what a page gives in every case *)
(* ------------------------------------------------------------------ *)

Section ListResults.
Context {W : Type}.
Variable xml_Decode : string -> (xml_Name * list xml_Node) + error.
Implicit Types (b : @bucket W) (st : @State W).

(** X16: [ListKeys] never returns keys together with an error: whenever its
    error result is not nil, the sequence of keys is empty. *)
Theorem ListKeys_all_or_nothing b (prevKey : string) st (err : error) :
  snd (fst (ListKeys xml_Decode b prevKey st)) = Some err ->
  fst (fst (ListKeys xml_Decode b prevKey st)) = [].
Proof.
  unfold ListKeys.
  destruct (match validateKey prevKey with
            | Some err => if negb (String.eqb prevKey "") then Some err else None
            | None => None
            end) as [e|]; [reflexivity|].
  run_op. destruct (clock_Now b st) as [now st1].
  destruct (signAndSend b _ st1) as [[resp|e] st2]; simpl; [|reflexivity].
  unfold ReadBody, xml_Unmarshal.
  destruct (negb (StatusCode resp =? 200)%Z); simpl; [reflexivity|].
  destruct (rc_failure (RespBody resp)); simpl; [reflexivity|].
  destruct (xml_Decode (rc_data (RespBody resp))) as [[nm children]|e]; simpl;
    [|reflexivity].
  destruct (negb (String.eqb (Local nm) "ListBucketResult")); simpl; [reflexivity|].
  discriminate.
Qed.

(** X17: for a response with status 200 whose body is read without an error
    and decodes to a [ListBucketResult] document, well-formed or not,
    [ListKeys] returns one key for each [Contents] element, in document
    order: the text of the last [Key] element under it, and the empty string
    when it has none. *)
Theorem ListKeys_one_key_per_Contents b (prevKey : string) st (l : list Call)
  (r : Request) (resp : Response) (body : string) (nm : xml_Name)
  (children : list xml_Node) :
  calls (snd (ListKeys xml_Decode b prevKey st)) = calls st ++ l ->
  last l = Some (Conn_SendRequest r (inl resp)) ->
  StatusCode resp = 200%Z ->
  ReadBody resp = (body, None) ->
  xml_Decode body = inl (nm, children) ->
  Local nm = "ListBucketResult" ->
  fst (ListKeys xml_Decode b prevKey st) =
    (map (fun ch => default "" (last (elementKeys ch))) (contentsElements children), None).
Proof.
  intros Hl Hlast Hcode Hbody Hdec Hroot.
  unfold ReadBody in Hbody. injection Hbody as <- Hread.
  rewrite (ListKeys_response xml_Decode b prevKey st l r resp Hl Hlast).
  rewrite Hcode, Hread, Hdec, Hroot, unmarshal_Contents.
  change (negb (200 =? 200)%Z) with false.
  change (negb (String.eqb "ListBucketResult" "ListBucketResult")) with false.
  cbv iota. f_equal. unfold contentsElements. clear Hdec.
  induction children as [|n rest IH]; [reflexivity|].
  simpl. rewrite !map_app, IH. f_equal.
  destruct n as [nm' ch|d]; [|reflexivity].
  destruct (String.eqb (Local nm') "Contents"); [|reflexivity].
  simpl. now rewrite unmarshal_bucketContents_last.
Qed.

End ListResults.

Lemma ListKeys_one_key_per_Contents_witness :
  fst (ListKeys xmltest.Decode (someBucket (respond 200 (stringReadCloser oddKeysBody)))
                "" start) = ([""; "baz"], None).
Proof.
  eapply eq_trans.
  - eapply (ListKeys_one_key_per_Contents xmltest.Decode
              (someBucket (respond 200 (stringReadCloser oddKeysBody))) "" start).
    + vm_compute. reflexivity.
    + reflexivity.
    + reflexivity.
    + reflexivity.
    + vm_compute. reflexivity.
    + reflexivity.
  - reflexivity.
Defined.

Lemma ListKeys_all_or_nothing_witness :
  fst (fst (ListKeys xmltest.Decode (someBucket notFound) "" start)) = [].
Proof.
  eapply (ListKeys_all_or_nothing xmltest.Decode (someBucket notFound) "" start).
  vm_compute. reflexivity.
Defined.

(* ------------------------------------------------------------------ *)
(** ** The query string of any request *)
(* ------------------------------------------------------------------ *)

Lemma makeRawQuery_values (m : gmap string string) :
  map_fold (fun key val values => url.Set_ values key val) (∅ : url.Values) m
  = (fun v => [v]) <$> m.
Proof.
  apply (map_fold_weak_ind (fun r m => r = (fun v => [v]) <$> m)).
  - now rewrite fmap_empty.
  - intros i x m' r Hi ->. unfold url.Set_. now rewrite fmap_insert.
Qed.

Lemma insertKey_Permutation (k : string) (l : list string) : url.insertKey k l ≡ₚ k :: l.
Proof.
  induction l as [|k' l IH]; simpl; [reflexivity|].
  destruct (String.leb k k'); [reflexivity|].
  rewrite IH. apply perm_swap.
Qed.

Lemma insertKey_Sorted (k : string) (l : list string) :
  Sorted String.le l -> Sorted String.le (url.insertKey k l).
Proof.
  induction l as [|k' l IH]; simpl; intros Hs.
  - repeat constructor.
  - destruct (String.leb k k') eqn:Hle.
    + constructor; [assumption|]. constructor. unfold String.le. now rewrite Hle.
    + assert (String.le k' k) as Hge.
      { destruct (String.leb_total k k') as [H|H]; [congruence|].
        unfold String.le. now rewrite H. }
      inversion Hs as [|? ? Hs' Hhd]; subst. constructor; [auto|].
      destruct l as [|k'' l]; simpl; [now constructor|].
      destruct (String.leb k k''); constructor; [assumption|].
      now inversion Hhd.
Qed.

Lemma sortedKeys_Permutation (v : url.Values) :
  url.sortedKeys v ≡ₚ (map_to_list v).*1.
Proof.
  unfold url.sortedKeys. change (map fst (map_to_list v)) with ((map_to_list v).*1).
  induction ((map_to_list v).*1) as [|k l IH]; simpl; [reflexivity|].
  now rewrite insertKey_Permutation, IH.
Qed.

Lemma sortedKeys_Sorted (v : url.Values) : Sorted String.le (url.sortedKeys v).
Proof.
  unfold url.sortedKeys.
  induction (map fst (map_to_list v)) as [|k l IH]; simpl; [constructor|].
  now apply insertKey_Sorted.
Qed.

Lemma sortedParameters_keys (m : gmap string string) :
  map fst (sortedParameters m) = url.sortedKeys ((fun v => [v]) <$> m).
Proof.
  unfold sortedParameters. rewrite List.map_map. simpl. apply List.map_id.
Qed.

Lemma sortedParameters_Permutation (m : gmap string string) :
  sortedParameters m ≡ₚ map_to_list m.
Proof.
  unfold sortedParameters.
  rewrite sortedKeys_Permutation, map_to_list_fmap.
  change (map ?f ?l) with (f <$> l).
  rewrite <- !list_fmap_compose.
  replace ((fun k => (k, default "" (m !! k))) ∘ fst ∘ prod_map id (fun v => [v])
             <$> map_to_list m) with (map_to_list m); [reflexivity|].
  rewrite <- (list_fmap_id (map_to_list m)) at 1.
  apply list_fmap_ext_in || apply Forall_fmap_ext_1.
  apply Forall_forall. intros [k x] Hin%elem_of_map_to_list. simpl. now rewrite Hin.
Qed.

Lemma length_append (s t : string) :
  String.length (s +:+ t) = String.length s + String.length t.
Proof. induction s as [|c s IH]; simpl; [reflexivity | now rewrite IH]. Qed.

Lemma pairString_cons (kv : string * string) : exists c s, pairString kv = String c s.
Proof.
  unfold pairString. destruct (url.QueryEscape (fst kv)) as [|c s]; simpl; eauto.
Qed.

Lemma joinAmp_cons (p q : string) (l : list string) :
  joinAmp (p :: q :: l) = p +:+ "&" +:+ joinAmp (q :: l).
Proof. reflexivity. Qed.

Lemma Encode_fold (m : gmap string string) (ks : list string) (buf : string) :
  Forall (fun k => is_Some (m !! k)) ks ->
  fold_left (fun buf k =>
    let keyEscaped := url.QueryEscape k in
    fold_left (fun buf val =>
      (if (0 <? String.length buf)%nat then buf +:+ "&" else buf)
        +:+ keyEscaped +:+ "=" +:+ url.QueryEscape val)
      (default [] (((fun v => [v]) <$> m) !! k)) buf) ks buf =
  match ks with
  | [] => buf
  | _ => (if (0 <? String.length buf)%nat then buf +:+ "&" else buf)
           +:+ joinAmp (map pairString (map (fun k => (k, default "" (m !! k))) ks))
  end.
Proof.
  intros Hks. revert buf. induction Hks as [|k ks [x Hx] Hks IH]; intros buf; [reflexivity|].
  cbn [fold_left]. rewrite lookup_fmap, Hx.
  cbn [fmap option_fmap option_map from_option id fold_left].
  rewrite IH. cbn [map]. rewrite Hx. cbn [from_option id].
  change (url.QueryEscape k +:+ "=" +:+ url.QueryEscape x) with (pairString (k, x)).
  destruct ks as [|k' ks]; [reflexivity|].
  cbn [map]. rewrite joinAmp_cons.
  set (pre := if (0 <? String.length buf)%nat then buf +:+ "&" else buf).
  destruct (pairString_cons (k, x)) as (c & s & Hp).
  assert ((0 <? String.length (pre +:+ pairString (k, x)))%nat = true) as ->.
  { apply Nat.ltb_lt. rewrite length_append, Hp. simpl. lia. }
  now rewrite !append_assoc.
Qed.

Lemma makeRawQuery_sortedParameters (r : Request) :
  makeRawQuery r = joinAmp (map pairString (sortedParameters (Parameters r))).
Proof.
  unfold makeRawQuery, url.Encode. rewrite makeRawQuery_values, Encode_fold.
  - unfold sortedParameters. now destruct (url.sortedKeys _).
  - apply Forall_forall. intros k Hin.
    rewrite sortedKeys_Permutation in Hin.
    apply list_elem_of_fmap in Hin as ([k' v] & -> & Hin).
    apply elem_of_map_to_list in Hin. rewrite lookup_fmap in Hin. simpl.
    destruct (Parameters r !! k'); [eauto | discriminate].
Qed.

(** X18: the query string of a request is its parameters written as
    [name=value] with both sides escaped by [QueryEscape], joined by [&], each
    parameter once, in increasing byte order of the names. *)
Theorem makeRawQuery_sorted (r : Request) :
  exists kvs : list (string * string),
    kvs ≡ₚ map_to_list (Parameters r) /\
    Sorted String.le (map fst kvs) /\
    makeRawQuery r = joinAmp (map pairString kvs).
Proof.
  exists (sortedParameters (Parameters r)). split; [apply sortedParameters_Permutation|].
  split; [rewrite sortedParameters_keys; apply sortedKeys_Sorted|].
  apply makeRawQuery_sortedParameters.
Qed.

(** Reading the query string back. *)

Lemma QueryEscape_cons (c : ascii) (s : string) :
  url.QueryEscape (String c s) = url.QueryEscape (String c "") +:+ url.QueryEscape s.
Proof.
  cbn [url.QueryEscape].
  destruct (url.shouldEscape (byteZ c)); [destruct (byteZ c =? 32)%Z|]; reflexivity.
Qed.

Lemma QueryEscape_byte_chars (c : ascii) :
  forallb isQueryChar (list_ascii_of_string (url.QueryEscape (String c ""))) = true.
Proof. destruct c as [[] [] [] [] [] [] [] []]; vm_compute; reflexivity. Qed.

Lemma unescape_byte (c : ascii) (t : string) :
  unescape (url.QueryEscape (String c "") +:+ t) = String c (unescape t).
Proof. destruct c as [[] [] [] [] [] [] [] []]; reflexivity. Qed.

Lemma unescape_QueryEscape (s : string) : unescape (url.QueryEscape s) = s.
Proof.
  induction s as [|c s IH]; [reflexivity|].
  now rewrite QueryEscape_cons, unescape_byte, IH.
Qed.

Lemma list_ascii_of_string_app (s t : string) :
  list_ascii_of_string (s +:+ t) = list_ascii_of_string s ++ list_ascii_of_string t.
Proof. induction s as [|c s IH]; simpl; [reflexivity | now rewrite IH]. Qed.

Lemma QueryEscape_chars (s : string) :
  Forall (fun c => isQueryChar c = true) (list_ascii_of_string (url.QueryEscape s)).
Proof.
  induction s as [|c s IH]; [constructor|].
  rewrite QueryEscape_cons, list_ascii_of_string_app. apply Forall_app. split; [|assumption].
  apply List.Forall_forall. apply forallb_forall. apply QueryEscape_byte_chars.
Qed.

Lemma QueryEscape_no (x : ascii) (s : string) :
  isQueryChar x = false -> ~ In x (list_ascii_of_string (url.QueryEscape s)).
Proof.
  intros Hx Hin. pose proof (QueryEscape_chars s) as Hall.
  rewrite List.Forall_forall in Hall. specialize (Hall x Hin). congruence.
Qed.

Lemma string_of_chars_app (l1 l2 : list ascii) :
  string_of_chars (l1 ++ l2) = string_of_chars l1 +:+ string_of_chars l2.
Proof. induction l1 as [|c l1 IH]; simpl; [reflexivity | now rewrite IH]. Qed.

Lemma string_of_chars_snoc (cur : list ascii) (c : ascii) (p : string) :
  string_of_chars (rev (c :: cur)) +:+ p = string_of_chars (rev cur) +:+ String c p.
Proof. simpl. now rewrite string_of_chars_app, append_assoc. Qed.

Lemma splitOn_piece (sep : ascii) (p : string) (cur : list ascii) (rest : string) :
  ~ In sep (list_ascii_of_string p) ->
  splitOn sep cur (p +:+ String sep rest)
    = (string_of_chars (rev cur) +:+ p) :: splitOn sep [] rest.
Proof.
  revert cur. induction p as [|c p IH]; intros cur Hno.
  - change ("" +:+ String sep rest) with (String sep rest). cbn [splitOn].
    now rewrite Ascii.eqb_refl, append_nil_r.
  - rewrite append_cons. cbn [splitOn].
    destruct (Ascii.eqb_spec c sep) as [->|Hne]; [destruct Hno; now left|].
    rewrite IH, string_of_chars_snoc; [reflexivity|].
    intros Hin. apply Hno. now right.
Qed.

Lemma splitOn_last (sep : ascii) (p : string) (cur : list ascii) :
  ~ In sep (list_ascii_of_string p) ->
  splitOn sep cur p = [string_of_chars (rev cur) +:+ p].
Proof.
  revert cur. induction p as [|c p IH]; intros cur Hno.
  - cbn [splitOn]. now rewrite append_nil_r.
  - cbn [splitOn].
    destruct (Ascii.eqb_spec c sep) as [->|Hne]; [destruct Hno; now left|].
    rewrite IH, string_of_chars_snoc; [reflexivity|].
    intros Hin. apply Hno. now right.
Qed.

Lemma splitOn_joinAmp (ps : list string) :
  ps <> [] ->
  Forall (fun p => ~ In "&"%char (list_ascii_of_string p)) ps ->
  splitOn "&" [] (joinAmp ps) = ps.
Proof.
  induction ps as [|p ps IH]; [congruence|]. intros _ Hall.
  inversion Hall as [|? ? Hp Hps]; subst.
  destruct ps as [|q ps].
  - cbn [joinAmp]. now rewrite splitOn_last.
  - rewrite joinAmp_cons.
    change ("&" +:+ joinAmp (q :: ps)) with (String "&" (joinAmp (q :: ps))).
    rewrite splitOn_piece by assumption.
    change (string_of_chars (rev []) +:+ p) with p.
    f_equal. apply IH; [congruence | assumption].
Qed.

Lemma splitPair_piece (k v : string) (cur : list ascii) :
  ~ In "="%char (list_ascii_of_string k) ->
  splitPair cur (k +:+ String "=" v) = (string_of_chars (rev cur) +:+ k, v).
Proof.
  revert cur. induction k as [|c k IH]; intros cur Hno.
  - change ("" +:+ String "=" v) with (String "="%char v). cbn [splitPair].
    now rewrite Ascii.eqb_refl, append_nil_r.
  - rewrite append_cons. cbn [splitPair].
    destruct (Ascii.eqb_spec c "=") as [->|Hne]; [destruct Hno; now left|].
    rewrite IH, string_of_chars_snoc; [reflexivity|].
    intros Hin. apply Hno. now right.
Qed.

Lemma pairString_read (kv : string * string) :
  (let '(k, v) := splitPair [] (pairString kv) in (unescape k, unescape v)) = kv.
Proof.
  destruct kv as [k v]. unfold pairString. cbn [fst snd].
  change ("=" +:+ url.QueryEscape v) with (String "=" (url.QueryEscape v)).
  rewrite splitPair_piece by (now apply QueryEscape_no).
  change (string_of_chars (rev []) +:+ url.QueryEscape k) with (url.QueryEscape k).
  now rewrite !unescape_QueryEscape.
Qed.

Lemma pairString_no_amp (kv : string * string) :
  ~ In "&"%char (list_ascii_of_string (pairString kv)).
Proof.
  unfold pairString. rewrite list_ascii_of_string_app. intros Hin.
  apply in_app_or in Hin as [Hin|Hin].
  - now apply QueryEscape_no in Hin.
  - change ("=" +:+ url.QueryEscape (snd kv)) with (String "=" (url.QueryEscape (snd kv))) in Hin.
    destruct Hin as [Heq|Hin]; [discriminate|]. now apply QueryEscape_no in Hin.
Qed.

Lemma joinAmp_nonempty (kv : string * string) (l : list string) :
  exists c s, joinAmp (pairString kv :: l) = String c s.
Proof.
  destruct (pairString_cons kv) as (c & s & Hp).
  destruct l as [|q l]; [cbn [joinAmp]; eauto|].
  rewrite joinAmp_cons, Hp, append_cons. eauto.
Qed.

Lemma parseQuery_joinAmp (kvs : list (string * string)) :
  parseQuery (joinAmp (map pairString kvs)) = kvs.
Proof.
  destruct kvs as [|kv kvs]; [reflexivity|].
  unfold parseQuery. cbn [map].
  destruct (joinAmp_nonempty kv (map pairString kvs)) as (c & s & Hq).
  rewrite Hq. rewrite <- Hq.
  change (pairString kv :: map pairString kvs) with (map pairString (kv :: kvs)).
  rewrite splitOn_joinAmp.
  - rewrite List.map_map. rewrite <- (List.map_id (kv :: kvs)) at 2.
    apply List.map_ext. apply pairString_read.
  - discriminate.
  - apply List.Forall_forall. intros p Hin. apply in_map_iff in Hin as (kv' & <- & _).
    apply pairString_no_amp.
Qed.

Lemma parseQuery_makeRawQuery (r : Request) :
  list_to_map (parseQuery (makeRawQuery r)) = Parameters r.
Proof.
  rewrite makeRawQuery_sortedParameters, parseQuery_joinAmp.
  rewrite <- (list_to_map_to_list (Parameters r)) at 2.
  symmetry. apply list_to_map_proper; [apply NoDup_fst_map_to_list|].
  symmetry. apply sortedParameters_Permutation.
Qed.

(** X19: the query string loses nothing: two requests with the same query
    string have the same parameters. *)
Theorem makeRawQuery_injective (r1 r2 : Request) :
  makeRawQuery r1 = makeRawQuery r2 -> Parameters r1 = Parameters r2.
Proof.
  intros Heq.
  rewrite <- (parseQuery_makeRawQuery r1), <- (parseQuery_makeRawQuery r2).
  now rewrite Heq.
Qed.

Lemma joinAmp_chars (P : ascii -> Prop) (ps : list string) :
  P "&"%char ->
  Forall (fun p => Forall P (list_ascii_of_string p)) ps ->
  Forall P (list_ascii_of_string (joinAmp ps)).
Proof.
  intros Hamp. induction ps as [|p ps IH]; intros Hall; [constructor|].
  inversion Hall as [|? ? Hp Hps]; subst.
  destruct ps as [|q ps]; [assumption|].
  rewrite joinAmp_cons, list_ascii_of_string_app. apply Forall_app. split; [assumption|].
  change ("&" +:+ joinAmp (q :: ps)) with (String "&" (joinAmp (q :: ps))).
  constructor; auto.
Qed.

(** X20: whatever the names and values of the parameters, every byte of the
    query string is an unreserved character (a letter, a digit, [-], [_],
    [.] or [~]) or one of [+], [%], [=] and [&]; so it holds no space, no
    [#], no [?] and no byte outside ASCII. *)
Theorem makeRawQuery_chars (r : Request) :
  Forall (fun c => url.shouldEscape (byteZ c) = false \/
                   c = "+"%char \/ c = "%"%char \/ c = "="%char \/ c = "&"%char)
         (list_ascii_of_string (makeRawQuery r)).
Proof.
  rewrite makeRawQuery_sortedParameters. apply joinAmp_chars; [auto 10|].
  apply List.Forall_forall. intros p Hin. apply in_map_iff in Hin as (kv & <- & _).
  assert (forall s, Forall (fun c => url.shouldEscape (byteZ c) = false \/
                   c = "+"%char \/ c = "%"%char \/ c = "="%char \/ c = "&"%char)
                 (list_ascii_of_string (url.QueryEscape s))) as Hq.
  { intros s. eapply Forall_impl; [apply QueryEscape_chars|].
    intros c Hc. unfold isQueryChar in Hc.
    apply orb_true_iff in Hc as [Hc|Hc]; [apply orb_true_iff in Hc as [Hc|Hc]|].
    - left. now apply negb_true_iff.
    - right; left. now apply Ascii.eqb_eq.
    - right; right; left. now apply Ascii.eqb_eq. }
  unfold pairString. rewrite list_ascii_of_string_app. apply Forall_app. split; [apply Hq|].
  change ("=" +:+ url.QueryEscape (snd kv)) with (String "=" (url.QueryEscape (snd kv))).
  constructor; [auto 10 | apply Hq].
Qed.

Lemma makeRawQuery_injective_witness :
  Parameters escapingRequest =
  Parameters {| Verb := "HEAD"; Path := "/some.bucket"; Headers := ∅;
                Parameters := <["b&az=" := "qu ?x"]> (<[taco_ko := "burrito"]> ∅);
                Body := nil_Reader |}.
Proof.
  apply (makeRawQuery_injective escapingRequest
           {| Verb := "HEAD"; Path := "/some.bucket"; Headers := ∅;
              Parameters := <["b&az=" := "qu ?x"]> (<[taco_ko := "burrito"]> ∅);
              Body := nil_Reader |}).
  vm_compute. reflexivity.
Defined.

(* ------------------------------------------------------------------ *)
(** ** Connections and the opening of a bucket *)
(* ------------------------------------------------------------------ *)

(** X21: [encodeMD5] digests the whole content wherever the stream stands:
    for a body held in memory, read up to any offset, it returns the base64
    text of the MD5 digest of all the bytes, not of the bytes that are left,
    and leaves the reader at offset 0. *)
Theorem encodeMD5_whole_content (b : string) (i : Z) :
  encodeMD5 {| r_s := b; r_i := i; r_readFault := None |} =
    ((base64.EncodeToString (md5.Sum b), None), bytes_NewReader b).
Proof.
  rewrite <- (encodeMD5_bytes_Reader b). reflexivity.
Qed.

(** X22: [NewConn] accepts exactly the schemes [http] and [https], in lower
    case.  For them it returns a connection to the endpoint it was given; for
    any other scheme it returns the error [Unsupported scheme: ] followed by
    the scheme. *)
Theorem NewConn_scheme (u : url_URL) :
  (Scheme u = "http" \/ Scheme u = "https" -> NewConn u = inl {| endpoint := u |}) /\
  (Scheme u <> "http" -> Scheme u <> "https" ->
   NewConn u = inr (errors_New ("Unsupported scheme: " +:+ Scheme u))).
Proof.
  unfold NewConn. split.
  - intros [-> | ->]; reflexivity.
  - intros H1%String.eqb_neq H2%String.eqb_neq. now rewrite H1, H2.
Qed.

Lemma NewConn_scheme_witness :
  NewConn {| Scheme := "https"; Host := "s3.amazonaws.com"; URLPath := ""; RawQuery := "" |}
    = inl {| endpoint := {| Scheme := "https"; Host := "s3.amazonaws.com";
                            URLPath := ""; RawQuery := "" |} |} /\
  NewConn {| Scheme := "HTTPS"; Host := "s3.amazonaws.com"; URLPath := ""; RawQuery := "" |}
    = inr (errors_New "Unsupported scheme: HTTPS").
Proof.
  split.
  - apply (NewConn_scheme {| Scheme := "https"; Host := "s3.amazonaws.com";
                             URLPath := ""; RawQuery := "" |}).
    right. reflexivity.
  - apply (NewConn_scheme {| Scheme := "HTTPS"; Host := "s3.amazonaws.com";
                             URLPath := ""; RawQuery := "" |}); discriminate.
Defined.

Section Opening.
Context {W : Type}.
Variable AccessKey : Type.
Variable auth_NewSigner : AccessKey -> @Signer W + error.
Variable time_RealClock : @Clock W.
Variable conn_SendRequest : conn -> Request -> W -> (Response + error) * W.

(** X23: [OpenBucket] fails exactly when no signer can be made for the access
    key, with the error of [auth.NewSigner] behind the prefix
    [auth.NewSigner: ]; its branch for an error of [http.NewConn] is never
    taken.  Otherwise it returns a bucket with the name it was given, that
    signer, the real clock and a connection to the region over https,
    whatever the name and the region are. *)
Theorem OpenBucket_result (name region : string) (key : AccessKey) :
  s3.OpenBucket AccessKey auth_NewSigner time_RealClock conn_SendRequest name region key =
  match auth_NewSigner key with
  | inr err => inr (errors_New ("auth.NewSigner: " +:+ Error err))
  | inl signer =>
      inl {| name := name;
             httpConn := s3.asConn conn_SendRequest
                           {| endpoint := {| Scheme := "https"; Host := region;
                                             URLPath := ""; RawQuery := "" |} |};
             signer := signer;
             clock := time_RealClock |}
  end.
Proof.
  unfold s3.OpenBucket, s3.openBucket, NewConn. cbn [Scheme].
  change (String.eqb "https" "http" || String.eqb "https" "https") with true.
  cbv iota. destruct (auth_NewSigner key); reflexivity.
Qed.

End Opening.
